(** * User CRUD service: repository, service and handler layers

    A shallow embedding of the Go packages [models], [errors], [repository],
    [services] and [api] of the user service, and the properties its
    specification states about them.

    Modelling conventions.
    - Go's [int] is the 64-bit two's-complement integer of the build targets
      (linux/amd64); it is a [Z] wrapped by [int_wrap] after every
      arithmetic operation.
    - [*models.User] is a pointer: [ptr] is an optional address ([None] is
      [nil]) and the pointees live in a heap, a finite map from addresses
      to [User] records.  The in-memory repository is a Go map from
      identifiers to such pointers, so the service's in-place field updates
      are visible through the map.
    - A computation is a function from the world to an optional result and
      new world; [None] is a Go panic (nil dereference, [make] with a
      negative capacity).
    - [time.Now().UTC()], [uuid.New().String()] and the captured stack text
      are values supplied by the runtime; they are passed in as a [Runtime]
      record.  The [context.Context] argument and the log lines are not
      modelled; metric increments are recorded in the world.
    - Go randomises the order of [range] over a map.  The in-memory
      repository takes the iteration order as a parameter [order], about which
      only [range_order] is assumed: it lists each entry of the map once. *)

From Stdlib Require Import ZArith Ascii.
From stdpp Require Import gmap strings list fin_maps pretty.

Local Open Scope Z_scope.

(** ** Machine integers *)

Definition int_min : Z := - 2 ^ 63.
Definition int_max : Z := 2 ^ 63 - 1.

Definition int_wrap (z : Z) : Z := (z + 2 ^ 63) mod 2 ^ 64 - 2 ^ 63.

Definition is_int (z : Z) : Prop := int_min ≤ z ≤ int_max.

Definition int_add (a b : Z) : Z := int_wrap (a + b).
Definition int_sub (a b : Z) : Z := int_wrap (a - b).
Definition int_mul (a b : Z) : Z := int_wrap (a * b).
(** Go's [/] truncates toward zero; every divisor below is at least 1. *)
Definition int_div (a b : Z) : Z := int_wrap (Z.quot a b).

(** ** package models *)

(** A [time.Time] instant is a [Z]; the zero value of [time.Time] is [0]. *)

Record User := mkUser {
  ID : string;
  Email : string;
  Name : string;
  Role : string;
  Active : bool;
  CreatedAt : Z;
  UpdatedAt : Z
}.

Record UserCreateRequest := mkUserCreateRequest {
  create_Email : string;
  create_Name : string;
  create_Role : string
}.

(** Pointer fields: [None] is an absent (nil) field. *)
Record UserUpdateRequest := mkUserUpdateRequest {
  update_Email : option string;
  update_Name : option string;
  update_Role : option string;
  update_Active : option bool
}.

Record UserResponse := mkUserResponse {
  resp_ID : string;
  resp_Email : string;
  resp_Name : string;
  resp_Role : string;
  resp_Active : bool;
  resp_CreatedAt : Z;
  resp_UpdatedAt : Z
}.

Record UserListResponse := mkUserListResponse {
  Users : list UserResponse;
  Total : Z;
  Page : Z;
  PageSize : Z;
  TotalPages : Z
}.

Record ErrorResponse := mkErrorResponse {
  er_Error : string;
  er_Code : Z;
  er_Message : string;
  er_Details : string
}.

Definition ToResponse (u : User) : UserResponse :=
  {| resp_ID := ID u;
     resp_Email := Email u;
     resp_Name := Name u;
     resp_Role := Role u;
     resp_Active := Active u;
     resp_CreatedAt := CreatedAt u;
     resp_UpdatedAt := UpdatedAt u |}.

(** Field assignments [user.Email = v], [user.Name = v], ... *)
Definition set_Email (v : string) (u : User) : User :=
  mkUser (ID u) v (Name u) (Role u) (Active u) (CreatedAt u) (UpdatedAt u).
Definition set_Name (v : string) (u : User) : User :=
  mkUser (ID u) (Email u) v (Role u) (Active u) (CreatedAt u) (UpdatedAt u).
Definition set_Role (v : string) (u : User) : User :=
  mkUser (ID u) (Email u) (Name u) v (Active u) (CreatedAt u) (UpdatedAt u).
Definition set_Active (v : bool) (u : User) : User :=
  mkUser (ID u) (Email u) (Name u) (Role u) v (CreatedAt u) (UpdatedAt u).

#[global] Instance User_eq_dec : EqDecision User.
Proof. solve_decision. Defined.

(** ** package errors *)

(** A Go [error] value: a plain error string (as made by [errors.New] or a
    database driver) or an [*AppError]. *)
#[warnings="-register-all"]
Inductive error : Type :=
| errorString (s : string)
| AppError (Code : Z) (Message Detail : string) (Internal : option error)
           (StackTrace : string).

Definition ErrCodeOK : Z := 200.
Definition ErrCodeBadRequest : Z := 400.
Definition ErrCodeUnauthorized : Z := 401.
Definition ErrCodeForbidden : Z := 403.
Definition ErrCodeNotFound : Z := 404.
Definition ErrCodeConflict : Z := 409.
Definition ErrCodeInternal : Z := 500.
Definition ErrCodeServiceUnavailable : Z := 503.

(** [err.Error()]; [%v] of an error prints its [Error()] text. *)
Fixpoint Error (e : error) : string :=
  match e with
  | errorString s => s
  | AppError _ msg _ (Some i) _ => msg +:+ ": " +:+ Error i
  | AppError _ msg _ None _ => msg
  end.

Definition Unwrap (e : error) : option error :=
  match e with
  | errorString _ => None
  | AppError _ _ _ i _ => i
  end.

Definition ErrNotFound : error := AppError ErrCodeNotFound "Resource not found" "" None "".
Definition ErrInternalServer : error :=
  AppError ErrCodeInternal "An unexpected error occurred" "" None "".

Definition NewAppError (stack : string) (code : Z) (message detail : string)
    (internal : option error) : error :=
  AppError code message detail internal stack.

Definition NotFoundError (resource id : string) : error :=
  AppError ErrCodeNotFound (resource +:+ " not found") ("ID: " +:+ id) None "".

(** [errors.As(err, &appErr)]: the first [*AppError] on the [Unwrap] chain. *)
Definition As (e : error) : option error :=
  match e with
  | errorString _ => None
  | AppError _ _ _ _ _ => Some e
  end.

Definition HTTPStatus (e : error) : Z :=
  match As e with
  | Some (AppError code _ _ _ _) => code
  | _ => 500
  end.

(** ** Computations over a heap of users *)

(** A [*models.User] is an optional address; [None] is [nil]. *)
Abbreviation ptr := (option positive) (only parsing).

Inductive Metric :=
| UsersInc
| OperationInc (operation status : string)
| RequestInc (path : string).

(** The world: the pointees of every [*models.User], the state [store] of
    the component at hand (a repository's table, a response writer) and the
    metric increments so far, newest first. *)
Record World (S : Type) := mkWorld {
  heap : gmap positive User;
  store : S;
  emitted : list Metric
}.
Arguments mkWorld {S} _ _ _.
Arguments heap {S} _.
Arguments store {S} _.
Arguments emitted {S} _.

(** [None] is a panic. *)
Definition Go (S A : Type) : Type := World S → option (A * World S).

#[global] Instance Go_ret {S} : MRet (Go S) := λ A a w, Some (a, w).
#[global] Instance Go_bind {S} : MBind (Go S) := λ A B f m w,
  match m w with
  | Some (a, w') => f a w'
  | None => None
  end.

Section Primitives.
Context {S : Type}.

Definition panic {A} : Go S A := λ _, None.

(** [*p] *)
Definition deref (p : ptr) : Go S User := λ w,
  match p with
  | Some l => match heap w !! l with
              | Some u => Some (u, w)
              | None => None
              end
  | None => None
  end.

(** [p.f = v], as the field update [f] of the pointee. *)
Definition assign (p : ptr) (f : User → User) : Go S unit := λ w,
  match p with
  | Some l => match heap w !! l with
              | Some u => Some (tt, mkWorld (<[l := f u]> (heap w)) (store w) (emitted w))
              | None => None
              end
  | None => None
  end.

(** [&User{...}]: a pointer to a new pointee. *)
Definition alloc (u : User) : Go S ptr := λ w,
  let l := fresh (dom (heap w)) in
  Some (Some l, mkWorld (<[l := u]> (heap w)) (store w) (emitted w)).

Definition get_store : Go S S := λ w, Some (store w, w).
Definition put_store (s : S) : Go S unit := λ w,
  Some (tt, mkWorld (heap w) s (emitted w)).

Definition emit (m : Metric) : Go S unit := λ w,
  Some (tt, mkWorld (heap w) (store w) (m :: emitted w)).

(** package metrics *)
Definition IncUsers : Go S unit := emit UsersInc.
Definition IncOperation (operation status : string) : Go S unit :=
  emit (OperationInc operation status).
Definition IncRequest (path : string) : Go S unit := emit (RequestInc path).
End Primitives.

(** [models.NewUser]: [id] is [uuid.New().String()], [now] is
    [time.Now().UTC()]. *)
Definition NewUser {S} (id : string) (now : Z) (email name role : string) : Go S ptr :=
  alloc {| ID := id; Email := email; Name := name; Role := role;
           Active := true; CreatedAt := now; UpdatedAt := now |}.

(** ** package repository *)

(** The [UserRepository] interface.  Every method returns its results as Go
    does: the value and the error side by side. *)
Module UserRepository.
Record t (S : Type) := Build {
  Create : ptr → Go S (option error);
  GetByID : string → Go S (ptr * option error);
  GetByEmail : string → Go S (ptr * option error);
  Update : ptr → Go S (option error);
  Delete : string → Go S (option error);
  List : Z → Z → Go S (list ptr * option error);
  Count : Go S (Z * option error);
  Close : Go S (option error)
}.
Arguments Build {S}.
Arguments Create {S}.
Arguments GetByID {S}.
Arguments GetByEmail {S}.
Arguments Update {S}.
Arguments Delete {S}.
Arguments List {S}.
Arguments Count {S}.
Arguments Close {S}.
End UserRepository.

Module InMemoryUserRepository.
(** The field [users map[string]*models.User]. *)
Abbreviation users := (gmap string (option positive)) (only parsing).

Definition NewInMemoryUserRepository : users := ∅.

Section Methods.
(** The order in which [range r.users] visits the map. *)
Variable order : users → list (string * ptr).

Definition Create (user : ptr) : Go users (option error) :=
  u ← deref user;
  r ← get_store;
  put_store (<[ID u := user]> r);;
  mret None.

Definition GetByID (id : string) : Go users (ptr * option error) :=
  r ← get_store;
  match r !! id with
  | None => mret (None, None)
  | Some user => mret (user, None)
  end.

(** The loop body of [GetByEmail] over the entries still to visit. *)
Fixpoint GetByEmail_range (email : string) (entries : list (string * ptr))
    : Go users (ptr * option error) :=
  match entries with
  | [] => mret (None, None)
  | (_, user) :: rest =>
      u ← deref user;
      if decide (Email u = email) then mret (user, None)
      else GetByEmail_range email rest
  end.

Definition GetByEmail (email : string) : Go users (ptr * option error) :=
  r ← get_store;
  GetByEmail_range email (order r).

Definition Update (user : ptr) : Go users (option error) :=
  u ← deref user;
  r ← get_store;
  put_store (<[ID u := user]> r);;
  mret None.

Definition Delete (id : string) : Go users (option error) :=
  r ← get_store;
  put_store (delete id r);;
  mret None.

(** The loop of [List]: [count] entries visited, [acc] collected. *)
Fixpoint List_range (limit offset : Z) (entries : list (string * ptr))
    (count : Z) (acc : list ptr) : list ptr :=
  match entries with
  | [] => acc
  | (_, user) :: rest =>
      if bool_decide (offset ≤ count) then
        let acc := acc ++ [user] in
        if bool_decide (limit ≤ Z.of_nat (length acc)) then acc
        else List_range limit offset rest (int_add count 1) acc
      else List_range limit offset rest (int_add count 1) acc
  end.

(** [make([]*models.User, 0, limit)] panics when [limit] is negative (and
    when it exceeds what can be allocated, which is not modelled; the
    service passes a limit between 1 and 100). *)
Definition List (limit offset : Z) : Go users (list ptr * option error) :=
  if bool_decide (limit < 0) then panic
  else
    r ← get_store;
    mret (List_range limit offset (order r) 0 [], None).

Definition Count : Go users (Z * option error) :=
  r ← get_store;
  mret (Z.of_nat (size r), None).

Definition Close : Go users (option error) := mret None.

Definition repo : UserRepository.t users :=
  UserRepository.Build Create GetByID GetByEmail Update Delete List Count Close.
End Methods.
End InMemoryUserRepository.

(** ** package services *)

(** What the runtime supplies to one service call: the identifier that
    [uuid.New().String()] returns, the instant [time.Now().UTC()] returns and
    the stack text [NewAppError] records. *)
Record Runtime := mkRuntime {
  rt_uuid : string;
  rt_now : Z;
  rt_stack : string
}.

Module UserService.
Section Methods.
Context {S : Type}.
(** The field [repo repository.UserRepository]. *)
Variable repo : UserRepository.t S.

Definition CreateUser (rt : Runtime) (req : UserCreateRequest)
    : Go S (option UserResponse * option error) :=
  '(existing, err) ← UserRepository.GetByEmail repo (create_Email req);
  match err with
  | Some _ => mret (None, Some ErrInternalServer)
  | None =>
  match existing with
  | Some _ =>
      mret (None, Some (NewAppError (rt_stack rt) ErrCodeConflict
                          "User with this email already exists"
                          (create_Email req) None))
  | None =>
  user ← NewUser (rt_uuid rt) (rt_now rt)
                 (create_Email req) (create_Name req) (create_Role req);
  err ← UserRepository.Create repo user;
  match err with
  | Some _ => mret (None, Some ErrInternalServer)
  | None =>
  IncUsers;;
  IncOperation "create" "success";;
  u ← deref user;
  mret (Some (ToResponse u), None)
  end end end.

Definition GetUser (id : string) : Go S (option UserResponse * option error) :=
  '(user, err) ← UserRepository.GetByID repo id;
  match err with
  | Some _ => mret (None, Some ErrInternalServer)
  | None =>
  match user with
  | None => mret (None, Some (NotFoundError "User" id))
  | Some _ =>
  IncOperation "get" "success";;
  u ← deref user;
  mret (Some (ToResponse u), None)
  end end.

(** The loop filling [userResponses]. *)
Fixpoint ToResponses (users : list ptr) : Go S (list UserResponse) :=
  match users with
  | [] => mret []
  | user :: rest =>
      u ← deref user;
      rs ← ToResponses rest;
      mret (ToResponse u :: rs)
  end.

Definition ListUsers (page pageSize : Z)
    : Go S (option UserListResponse * option error) :=
  let page := if bool_decide (page < 1) then 1 else page in
  let pageSize :=
    if bool_decide (pageSize < 1) || bool_decide (pageSize > 100) then 10
    else pageSize in
  let offset := int_mul (int_sub page 1) pageSize in
  '(users, err) ← UserRepository.List repo pageSize offset;
  match err with
  | Some _ => mret (None, Some ErrInternalServer)
  | None =>
  '(total, err) ← UserRepository.Count repo;
  match err with
  | Some _ => mret (None, Some ErrInternalServer)
  | None =>
  let totalPages := int_div (int_sub (int_add total pageSize) 1) pageSize in
  userResponses ← ToResponses users;
  IncOperation "list" "success";;
  mret (Some {| Users := userResponses; Total := total; Page := page;
                PageSize := pageSize; TotalPages := totalPages |}, None)
  end end.

(** [UpdateUser] from [if req.Name != nil] to its end. *)
Definition UpdateUser_apply (req : UserUpdateRequest) (user : ptr)
    : Go S (option UserResponse * option error) :=
  match update_Name req with
  | Some v => assign user (set_Name v)
  | None => mret tt
  end;;
  match update_Role req with
  | Some v => assign user (set_Role v)
  | None => mret tt
  end;;
  match update_Active req with
  | Some v => assign user (set_Active v)
  | None => mret tt
  end;;
  err ← UserRepository.Update repo user;
  match err with
  | Some _ => mret (None, Some ErrInternalServer)
  | None =>
  IncOperation "update" "success";;
  u ← deref user;
  mret (Some (ToResponse u), None)
  end.

Definition UpdateUser (rt : Runtime) (id : string) (req : UserUpdateRequest)
    : Go S (option UserResponse * option error) :=
  '(user, err) ← UserRepository.GetByID repo id;
  match err with
  | Some _ => mret (None, Some ErrInternalServer)
  | None =>
  match user with
  | None => mret (None, Some (NotFoundError "User" id))
  | Some _ =>
  match update_Email req with
  | Some email =>
      '(existing, err) ← UserRepository.GetByEmail repo email;
      match err with
      | Some _ => mret (None, Some ErrInternalServer)
      | None =>
      taken ← match existing with
              | Some _ => e ← deref existing; mret (bool_decide (ID e ≠ id))
              | None => mret false
              end;
      if taken : bool then
        mret (None, Some (NewAppError (rt_stack rt) ErrCodeConflict
                            "Email is already in use" email None))
      else
        assign user (set_Email email);;
        UpdateUser_apply req user
      end
  | None => UpdateUser_apply req user
  end end end.

Definition DeleteUser (id : string) : Go S (option error) :=
  '(user, err) ← UserRepository.GetByID repo id;
  match err with
  | Some _ => mret (Some ErrInternalServer)
  | None =>
  match user with
  | None => mret (Some (NotFoundError "User" id))
  | Some _ =>
  err ← UserRepository.Delete repo id;
  match err with
  | Some _ => mret (Some ErrInternalServer)
  | None =>
  IncOperation "delete" "success";;
  mret None
  end end end.
End Methods.
End UserService.

(** ** package api *)

(** What a handler hands to [json.NewEncoder(w).Encode]. *)
Inductive Payload :=
| UserPayload (u : UserResponse)
| ErrorPayload (e : ErrorResponse).

(** An [http.ResponseWriter]: the header map, the status written ([None]
    until [WriteHeader]) and the values encoded into the body, in order. *)
Record ResponseWriter := mkResponseWriter {
  rw_header : gmap string string;
  rw_status : option Z;
  rw_body : list Payload
}.

Definition StatusOK : Z := 200.
Definition StatusNotFound : Z := 404.

Definition writeJSON (status : Z) (data : Payload) : Go ResponseWriter unit :=
  w ← get_store;
  put_store (mkResponseWriter (<["Content-Type" := "application/json"]> (rw_header w))
                              (rw_status w) (rw_body w));;
  w ← get_store;
  put_store (mkResponseWriter (rw_header w)
               (match rw_status w with Some s => Some s | None => Some status end)
               (rw_body w));;
  w ← get_store;
  put_store (mkResponseWriter (rw_header w) (rw_status w) (rw_body w ++ [data])).

Module Handlers.
(** [GetUser]; [id] is [chi.URLParam(r, "id")].  The [Handlers] struct holds
    a configuration, the metrics and a logger, and no service or
    repository. *)
Definition GetUser (id : string) : Go ResponseWriter unit :=
  let user := {| resp_ID := id; resp_Email := "user@example.com";
                 resp_Name := "Test User"; resp_Role := "user";
                 resp_Active := true; resp_CreatedAt := 0; resp_UpdatedAt := 0 |} in
  IncRequest "get_user";;
  writeJSON StatusOK (UserPayload user).
End Handlers.

(** ** Repository states *)

(** The user a pointer leads to, if it is not nil and allocated. *)
Definition pointee {S} (w : World S) (p : ptr) : option User :=
  match p with
  | Some l => heap w !! l
  | None => None
  end.

(** User [u] is stored under key [k]. *)
Definition stored (w : World (gmap string (option positive))) (k : string) (u : User) : Prop :=
  ∃ p, store w !! k = Some p ∧ pointee w p = Some u.

(** Every entry of the map leads to a user. *)
Definition entries_valid (w : World (gmap string (option positive))) : Prop :=
  map_Forall (λ _ p, is_Some (pointee w p)) (store w).

(** Every entry's key is the identifier of the user it leads to:
    [users[k].ID == k]. *)
Definition keys_match (w : World (gmap string (option positive))) : Prop :=
  map_Forall (λ k p, ID <$> pointee w p = Some k) (store w).

(** No two entries lead to users with the same email (nor are two entries
    both nil or dangling). *)
Definition emails_unique (w : World (gmap string (option positive))) : Prop :=
  map_Forall (λ k1 p1,
    map_Forall (λ k2 p2,
      k1 ≠ k2 → Email <$> pointee w p1 ≠ Email <$> pointee w p2) (store w))
    (store w).

(** Some entry leads to a user with this email. *)
Definition email_taken (w : World (gmap string (option positive))) (email : string) : Prop :=
  map_Exists (λ _ p, Email <$> pointee w p = Some email) (store w).

(** Some entry other than [id]'s leads to a user with this email. *)
Definition email_taken_by_other (w : World (gmap string (option positive)))
    (id email : string) : Prop :=
  map_Exists (λ k p, k ≠ id ∧ Email <$> pointee w p = Some email) (store w).

#[global] Instance entries_valid_dec w : Decision (entries_valid w).
Proof. unfold entries_valid. apply _. Defined.
#[global] Instance keys_match_dec w : Decision (keys_match w).
Proof. unfold keys_match. apply _. Defined.
#[global] Instance emails_unique_dec w : Decision (emails_unique w).
Proof. unfold emails_unique. apply _. Defined.
#[global] Instance email_taken_dec w email : Decision (email_taken w email).
Proof. unfold email_taken. apply _. Defined.
#[global] Instance email_taken_by_other_dec w id email :
  Decision (email_taken_by_other w id email).
Proof. unfold email_taken_by_other. apply _. Defined.

(** The invariant of the repository behind the service: keys are the users'
    identifiers and emails are unique. *)
Definition repo_inv (w : World (gmap string (option positive))) : Prop :=
  keys_match w ∧ emails_unique w.

(** The record an update request asks for: the fields present replace the
    user's, every other field stays. *)
Definition apply_request (req : UserUpdateRequest) (u : User) : User :=
  {| ID := ID u;
     Email := default (Email u) (update_Email req);
     Name := default (Name u) (update_Name req);
     Role := default (Role u) (update_Role req);
     Active := default (Active u) (update_Active req);
     CreatedAt := CreatedAt u;
     UpdatedAt := UpdatedAt u |}.

(** The state in which [UpdateUser] calls [Update]: the request applied to
    the user behind [l]. *)
Definition updated {S} (req : UserUpdateRequest) (l : positive) (u : User) (w : World S) : World S :=
  mkWorld (<[l := apply_request req u]> (heap w)) (store w) (emitted w).

(** The user [CreateUser] builds for a request: [NewUser]'s record. *)
Definition created (rt : Runtime) (req : UserCreateRequest) : User :=
  {| ID := rt_uuid rt; Email := create_Email req; Name := create_Name req;
     Role := create_Role req; Active := true;
     CreatedAt := rt_now rt; UpdatedAt := rt_now rt |}.

(** ** Repositories for exercising the service *)

(** A repository that records the arguments of each [List] call, lists no
    users and reports [count] as its [Count]. *)
Definition spyRepo (count : Z) : UserRepository.t (list (Z * Z)) :=
  UserRepository.Build
    (λ _, mret None)
    (λ _, mret (None, None))
    (λ _, mret (None, None))
    (λ _, mret None)
    (λ _, mret None)
    (λ limit offset, calls ← get_store;
                     put_store (calls ++ [(limit, offset)]);;
                     mret ([], None))
    (mret (count, None))
    (mret None).

(** The in-memory repository behind a connection that fails the methods
    [fails] names, with the error it gives for them. *)
Definition faultyRepo (order : gmap string (option positive) → list (string * ptr))
    (fails : string → option error)
    : UserRepository.t (gmap string (option positive)) :=
  UserRepository.Build
    (λ user, match fails "Create" with
             | Some e => mret (Some e)
             | None => InMemoryUserRepository.Create user end)
    (λ id, match fails "GetByID" with
           | Some e => mret (None, Some e)
           | None => InMemoryUserRepository.GetByID id end)
    (λ email, match fails "GetByEmail" with
              | Some e => mret (None, Some e)
              | None => InMemoryUserRepository.GetByEmail order email end)
    (λ user, match fails "Update" with
             | Some e => mret (Some e)
             | None => InMemoryUserRepository.Update user end)
    (λ id, match fails "Delete" with
           | Some e => mret (Some e)
           | None => InMemoryUserRepository.Delete id end)
    (λ limit offset, match fails "List" with
                     | Some e => mret ([], Some e)
                     | None => InMemoryUserRepository.List order limit offset end)
    (match fails "Count" with
     | Some e => mret (0, Some e)
     | None => InMemoryUserRepository.Count end)
    (mret None).

(** A response writer nothing has been written to. *)
Definition newResponseWriter : ResponseWriter := mkResponseWriter ∅ None [].

(** An iteration order visits each entry of the map exactly once. *)
Definition range_order (order : gmap string (option positive) → list (string * ptr)) : Prop :=
  ∀ m, order m ≡ₚ map_to_list m.

(** ** Pagination, as the specification words it *)

(** "page values <1 are clamped to 1" *)
Definition clamp_page (page : Z) : Z := if bool_decide (page < 1) then 1 else page.

(** "pageSize values ≤0 or >100 are clamped to 10" *)
Definition clamp_pageSize (pageSize : Z) : Z :=
  if bool_decide (pageSize ≤ 0) || bool_decide (pageSize > 100) then 10 else pageSize.

(** [q] is the ceiling of [a / b]. *)
Definition is_ceiling (q a b : Z) : Prop := (q - 1) * b < a ≤ q * b.

(** ** Example states *)

Definition ann : User := mkUser "id-1" "ann@example.com" "Ann" "admin" true 1000 1000.
Definition bob : User := mkUser "id-2" "bob@example.com" "Bob" "user" true 2000 2000.

(** An in-memory repository holding Ann and Bob. *)
Definition two_users : World (gmap string (option positive)) :=
  mkWorld (<[2%positive := bob]> {[1%positive := ann]})
          (<["id-2" := Some 2%positive]> {["id-1" := Some 1%positive]})
          [].

(** The store refuses writes: [Create], [Update] and [Delete] fail. *)
Definition read_only (method : string) : option error :=
  if bool_decide (method ∈ ["Create"; "Update"; "Delete"])
  then Some (errorString "pq: cannot execute in a read-only transaction")
  else None.

Definition rt0 : Runtime := mkRuntime "id-3" 3000 "services.go:41".

Definition rename (name : string) : UserUpdateRequest :=
  mkUserUpdateRequest None (Some name) None None.

(** ** The rest of package errors *)

(** [e.Code] of an [*AppError] (the targets of [Is] are [*AppError]s). *)
Definition Code (e : error) : Z :=
  match e with
  | AppError code _ _ _ _ => code
  | errorString _ => 0
  end.

(** [WrapError]; [err] is not nil, [stack] is the stack text recorded. *)
Definition WrapError (stack : string) (err : error) (code : Z) (message : string) : error :=
  match As err with
  | Some _ => AppError code message "" (Some err) stack
  | None => AppError code message (Error err) (Some err) stack
  end.

Definition ConflictError (resource id : string) : error :=
  AppError ErrCodeConflict (resource +:+ " already exists") ("ID: " +:+ id) None "".

Definition Is (err target : error) : bool :=
  match As err with
  | Some appErr => bool_decide (Code appErr = Code target)
  | None => false
  end.

(** The values of the [map[string]interface{}] that [Response] builds. *)
Inductive JSONValue :=
| JString (s : string)
| JInt (n : Z).

Definition Response (err : error) : gmap string JSONValue :=
  match As err with
  | Some (AppError code message detail _ _) =>
      let response := <["code" := JInt code]> (<["error" := JString message]> ∅) in
      if bool_decide (detail ≠ "") then <["details" := JString detail]> response
      else response
  | _ =>
      <["details" := JString (Error err)]>
        (<["code" := JInt 500]> (<["error" := JString "Internal Server Error"]> ∅))
  end.

(** ** The write handlers of package api *)

Definition StatusCreated : Z := 201.
Definition StatusBadRequest : Z := 400.

Definition writeError (status : Z) (message : string) : Go ResponseWriter unit :=
  writeJSON status
    (ErrorPayload {| er_Error := message; er_Code := status;
                     er_Message := message; er_Details := "" |}).

(** [Handlers.CreateUser].  [decoded] is what
    [json.NewDecoder(r.Body).Decode(&req)] leaves: [None] when it returns an
    error, else the request, a field the body lacks being empty. *)
Definition Handlers_CreateUser (rt : Runtime) (decoded : option UserCreateRequest)
    : Go ResponseWriter unit :=
  match decoded with
  | None => writeError StatusBadRequest "Invalid request body"
  | Some req =>
      if bool_decide (create_Email req = "") || bool_decide (create_Name req = "")
         || bool_decide (create_Role req = "")
      then writeError StatusBadRequest "Missing required fields"
      else
        user ← NewUser (rt_uuid rt) (rt_now rt)
                       (create_Email req) (create_Name req) (create_Role req);
        IncRequest "create_user";;
        u ← deref user;
        writeJSON StatusCreated (UserPayload (ToResponse u))
  end.

(** [Handlers.UpdateUser]; [id] is [chi.URLParam(r, "id")], [decoded] as
    for [Handlers_CreateUser]. *)
Definition Handlers_UpdateUser (id : string) (decoded : option UserUpdateRequest)
    : Go ResponseWriter unit :=
  match decoded with
  | None => writeError StatusBadRequest "Invalid request body"
  | Some _ =>
      let user := {| resp_ID := id; resp_Email := "updated@example.com";
                     resp_Name := "Updated User"; resp_Role := "user";
                     resp_Active := true; resp_CreatedAt := 0; resp_UpdatedAt := 0 |} in
      IncRequest "update_user";;
      writeJSON StatusOK (UserPayload user)
  end.

(** ** Windows of a listing *)

(** The entries a page of [limit] entries starting at [offset] holds. *)
Definition window {A} (limit offset : Z) (l : list A) : list A :=
  take (Z.to_nat limit) (drop (Z.to_nat offset) l).

(** Bob is allocated and not yet stored. *)
Definition bob_unlisted : World (gmap string (option positive)) :=
  mkWorld (heap two_users) {["id-1" := Some 1%positive]} [].

(** ** package config *)

Record Config := mkConfig {
  Host : string;
  Port : Z;
  Environment : string;
  LogLevel : string;
  MetricsPort : Z;
  DatabaseURL : string;
  RedisURL : string;
  JWTSecret : string;
  MaxHeaderSize : Z;
  ReadTimeout : Z;
  WriteTimeout : Z
}.

(** The process environment: [os.LookupEnv] is the lookup, [os.Getenv]
    gives the empty string for a variable that is not set. *)
Definition Getenv (env : gmap string string) (key : string) : string :=
  default "" (env !! key).

Definition getEnv (env : gmap string string) (key defaultValue : string) : string :=
  match env !! key with
  | Some value => value
  | None => defaultValue
  end.

(** [strconv.Atoi], as its documentation has it: an optional sign, then
    one or more decimal digits, the value within the range of [int];
    [None] is an error. *)
Definition digit (c : ascii) : option Z :=
  let n := Z.of_nat (nat_of_ascii c) in
  if bool_decide (48 ≤ n ≤ 57) then Some (n - 48) else None.

Fixpoint digits (acc : Z) (s : string) : option Z :=
  match s with
  | EmptyString => Some acc
  | String c rest =>
      match digit c with
      | Some d => digits (acc * 10 + d) rest
      | None => None
      end
  end.

Definition Atoi (s : string) : option Z :=
  let '(negative, body) :=
    match s with
    | String "-"%char rest => (true, rest)
    | String "+"%char rest => (false, rest)
    | _ => (false, s)
    end in
  match body with
  | EmptyString => None
  | _ =>
      match digits 0 body with
      | Some n =>
          let v := if negative : bool then - n else n in
          if bool_decide (int_min ≤ v ≤ int_max) then Some v else None
      | None => None
      end
  end.

Definition getEnvAsInt (env : gmap string string) (key : string) (defaultValue : Z) : Z :=
  match env !! key with
  | Some value =>
      match Atoi value with
      | Some intValue => intValue
      | None => defaultValue
      end
  | None => defaultValue
  end.

Definition Load (env : gmap string string) : option Config * option error :=
  (Some {| Host := getEnv env "APP_HOST" "0.0.0.0";
           Port := getEnvAsInt env "APP_PORT" 8080;
           Environment := getEnv env "ENVIRONMENT" "development";
           LogLevel := getEnv env "LOG_LEVEL" "info";
           MetricsPort := getEnvAsInt env "METRICS_PORT" 9090;
           DatabaseURL := Getenv env "DATABASE_URL";
           RedisURL := Getenv env "REDIS_URL";
           JWTSecret := Getenv env "JWT_SECRET";
           MaxHeaderSize := getEnvAsInt env "MAX_HEADER_SIZE" 1048576;
           ReadTimeout := getEnvAsInt env "READ_TIMEOUT" 30;
           WriteTimeout := getEnvAsInt env "WRITE_TIMEOUT" 30 |}, None).




Definition some_env : gmap string string :=
  <["APP_PORT" := "8081"]> (<["LOG_LEVEL" := "warn"]> (<["METRICS_PORT" := "nine"]>
    (<["READ_TIMEOUT" := "5"]> ∅))).

(** * Proofs *)

(** ** Running computations *)

Lemma bind_run {S A B} (m : Go S A) (f : A → Go S B) w :
  (m ≫= f) w = match m w with Some (a, w') => f a w' | None => None end.
Proof. reflexivity. Qed.

Lemma bind_run_Some {S A B} (m : Go S A) (f : A → Go S B) w a w' :
  m w = Some (a, w') → (m ≫= f) w = f a w'.
Proof. intros H. rewrite bind_run, H. reflexivity. Qed.

Lemma deref_run {S} (w : World S) p u :
  pointee w p = Some u → deref p w = Some (u, w).
Proof.
  unfold pointee, deref. destruct p as [l|]; [|discriminate].
  intros ->. reflexivity.
Qed.

Lemma deref_inv {S} (w w' : World S) p u :
  deref p w = Some (u, w') → pointee w p = Some u ∧ w' = w.
Proof.
  unfold pointee, deref. destruct p as [l|]; [|discriminate].
  destruct (heap w !! l); [|discriminate]. intros [= -> ->]. done.
Qed.

Lemma assign_run {S} (w : World S) l u f :
  heap w !! l = Some u →
  assign (Some l) f w = Some (tt, mkWorld (<[l := f u]> (heap w)) (store w) (emitted w)).
Proof. unfold assign. intros ->. reflexivity. Qed.

(** A world is determined by its three components. *)
Lemma World_eq {S} (w1 w2 : World S) :
  heap w1 = heap w2 → store w1 = store w2 → emitted w1 = emitted w2 → w1 = w2.
Proof. destruct w1, w2; simpl; congruence. Qed.

(** ** The in-memory repository, method by method *)

Module InMemoryFacts.
Import InMemoryUserRepository.

Lemma Create_run w user u :
  pointee w user = Some u →
  Create user w = Some (None, mkWorld (heap w) (<[ID u := user]> (store w)) (emitted w)).
Proof.
  intros Hu. unfold Create. rewrite (bind_run_Some _ _ _ _ _ (deref_run _ _ _ Hu)).
  reflexivity.
Qed.

Lemma Update_run w user u :
  pointee w user = Some u →
  Update user w = Some (None, mkWorld (heap w) (<[ID u := user]> (store w)) (emitted w)).
Proof. apply Create_run. Qed.

Lemma GetByID_run w id :
  GetByID id w = Some ((default None (store w !! id), None), w).
Proof. unfold GetByID. rewrite bind_run. simpl. destruct (store w !! id); reflexivity. Qed.

Lemma Delete_run w id :
  Delete id w = Some (None, mkWorld (heap w) (delete id (store w)) (emitted w)).
Proof. reflexivity. Qed.

Lemma Count_run w : Count w = Some ((Z.of_nat (size (store w)), None), w).
Proof. reflexivity. Qed.

Lemma GetByEmail_range_found w email entries :
  Forall (λ kp : string * ptr, is_Some (pointee w kp.2)) entries →
  (∃ k p u, (k, p) ∈ entries ∧ pointee w p = Some u ∧ Email u = email) →
  ∃ k p u, (k, p) ∈ entries ∧ pointee w p = Some u ∧ Email u = email ∧
    GetByEmail_range email entries w = Some ((p, None), w).
Proof.
  induction entries as [|[k0 p0] rest IH]; intros Hvalid (k & p & u & Hin & Hp & He).
  - by apply elem_of_nil in Hin.
  - apply Forall_cons in Hvalid as [[u0 Hu0] Hvalid]. simpl in Hu0.
    cbn [GetByEmail_range]. rewrite (bind_run_Some _ _ _ _ _ (deref_run _ _ _ Hu0)).
    destruct (decide (Email u0 = email)) as [He0|He0].
    + exists k0, p0, u0. split_and!; [left | done..].
    + apply elem_of_cons in Hin as [[= -> ->]|Hin]; [congruence|].
      destruct IH as (k' & p' & u' & Hin' & ? & ? & ?); [done|by eauto 6|].
      exists k', p', u'. split_and!; [by right | done..].
Qed.

Lemma GetByEmail_range_none w email entries :
  Forall (λ kp : string * ptr, is_Some (pointee w kp.2)) entries →
  (∀ k p u, (k, p) ∈ entries → pointee w p = Some u → Email u ≠ email) →
  GetByEmail_range email entries w = Some ((None, None), w).
Proof.
  induction entries as [|[k0 p0] rest IH]; intros Hvalid Hno; [done|].
  apply Forall_cons in Hvalid as [[u0 Hu0] Hvalid]. simpl in Hu0.
  cbn [GetByEmail_range]. rewrite (bind_run_Some _ _ _ _ _ (deref_run _ _ _ Hu0)).
  rewrite decide_False by (apply (Hno k0 p0 u0); [left|done]).
  apply IH; [done|]. intros k p u Hin. apply (Hno k). by right.
Qed.

Section Order.
Variable order : gmap string (option positive) → list (string * ptr).
Hypothesis order_perm : range_order order.

Lemma elem_of_order m k p : (k, p) ∈ order m ↔ m !! k = Some p.
Proof. rewrite (order_perm m). apply elem_of_map_to_list. Qed.

Lemma order_valid w :
  entries_valid w →
  Forall (λ kp : string * ptr, is_Some (pointee w kp.2)) (order (store w)).
Proof.
  intros Hv. apply Forall_forall. intros [k p] Hin.
  apply elem_of_order in Hin. exact (Hv k p Hin).
Qed.

(** [GetByEmail] finds a user with the email when one is stored. *)
Lemma GetByEmail_found w email :
  entries_valid w → email_taken w email →
  ∃ k l u, store w !! k = Some (Some l) ∧ heap w !! l = Some u ∧ Email u = email ∧
    GetByEmail order email w = Some ((Some l, None), w).
Proof.
  intros Hv (k & p & Hk & He).
  destruct (pointee w p) as [u|] eqn:Hp; [|done]. injection He as He.
  destruct (GetByEmail_range_found w email (order (store w))) as (k' & p' & u' & Hin & Hp' & He' & Hrun).
  - by apply order_valid.
  - exists k, p, u. by rewrite elem_of_order.
  - apply elem_of_order in Hin. destruct p' as [l|]; [|done].
    exists k', l, u'. done.
Qed.

(** [GetByEmail] finds nothing when no stored user has the email. *)
Lemma GetByEmail_none w email :
  entries_valid w → ¬ email_taken w email →
  GetByEmail order email w = Some ((None, None), w).
Proof.
  intros Hv Hno. unfold GetByEmail. rewrite bind_run. simpl.
  apply GetByEmail_range_none; [by apply order_valid|].
  intros k p u Hin Hp He. apply Hno. exists k, p.
  rewrite <- elem_of_order, Hp. simpl. by rewrite He.
Qed.
End Order.

End InMemoryFacts.

(** ** Repository-level deletion *)

(** C9: the in-memory repository's Delete(id) returns no error in every
    state, also when no record has that id (the state is then unchanged),
    and a second Delete(id) leaves the state the first one produced. *)
Theorem Delete_no_error_idempotent (id : string) (w : World (gmap string (option positive))) :
  ∃ w1, InMemoryUserRepository.Delete id w = Some (None, w1) ∧
        heap w1 = heap w ∧ store w1 = delete id (store w) ∧
        (store w !! id = None → w1 = w) ∧
        InMemoryUserRepository.Delete id w1 = Some (None, w1).
Proof.
  eexists. split; [apply InMemoryFacts.Delete_run|].
  split_and!; try reflexivity.
  - intros Hnone. apply World_eq; simpl; [done| |done]. by apply delete_id.
  - rewrite InMemoryFacts.Delete_run. simpl. by rewrite delete_delete_eq.
Qed.

(** ** The key invariant *)

Lemma keys_match_insert w user u :
  pointee w user = Some u → keys_match w →
  keys_match (mkWorld (heap w) (<[ID u := user]> (store w)) (emitted w)).
Proof.
  intros Hu Hinv. unfold keys_match. simpl. apply map_Forall_insert_2.
  - change (ID <$> pointee w user = Some (ID u)). by rewrite Hu.
  - exact Hinv.
Qed.

Lemma keys_match_delete w id :
  keys_match w → keys_match (mkWorld (heap w) (delete id (store w)) (emitted w)).
Proof. intros Hinv. unfold keys_match. simpl. by apply map_Forall_delete. Qed.

(** C10: in the in-memory repository every entry's key is the ID of the user
    it leads to, and Create, Update and Delete each preserve this: whatever
    state one of them returns from a state with the invariant has it too.
    Delete always returns; Create and Update return whenever their argument
    leads to a user. *)
Theorem keys_match_preserved (w : World (gmap string (option positive))) :
  keys_match w →
  (∀ user r w', InMemoryUserRepository.Create user w = Some (r, w') → keys_match w') ∧
  (∀ user r w', InMemoryUserRepository.Update user w = Some (r, w') → keys_match w') ∧
  (∀ id r w', InMemoryUserRepository.Delete id w = Some (r, w') → keys_match w') ∧
  (∀ user, is_Some (pointee w user) →
     is_Some (InMemoryUserRepository.Create user w) ∧
     is_Some (InMemoryUserRepository.Update user w)) ∧
  (∀ id, is_Some (InMemoryUserRepository.Delete id w)).
Proof.
  intros Hinv.
  assert (Hins : ∀ user r w',
    InMemoryUserRepository.Create user w = Some (r, w') → keys_match w').
  { intros user r w' Hrun.
    destruct (pointee w user) as [u|] eqn:Hu.
    - rewrite (InMemoryFacts.Create_run _ _ _ Hu) in Hrun.
      injection Hrun as <- <-. by apply keys_match_insert.
    - unfold InMemoryUserRepository.Create in Hrun. rewrite bind_run in Hrun.
      destruct (deref user w) as [[u w0]|] eqn:Hd; [|discriminate].
      apply deref_inv in Hd as [Hd _]. congruence. }
  split_and!.
  - exact Hins.
  - exact Hins.
  - intros id r w' Hrun. rewrite InMemoryFacts.Delete_run in Hrun.
    injection Hrun as <- <-. by apply keys_match_delete.
  - intros user [u Hu]. split.
    + rewrite (InMemoryFacts.Create_run _ _ _ Hu). eauto.
    + rewrite (InMemoryFacts.Update_run _ _ _ Hu). eauto.
  - intros id. rewrite InMemoryFacts.Delete_run. eauto.
Qed.

Lemma keys_match_preserved_witness :
  keys_match two_users ∧
  ∃ w1 w2,
    InMemoryUserRepository.Delete "id-1" two_users = Some (None, w1) ∧
    keys_match w1 ∧
    InMemoryUserRepository.Create (Some 1%positive) w1 = Some (None, w2) ∧
    keys_match w2.
Proof.
  assert (H : keys_match two_users) by (refine (bool_decide_unpack _ _); vm_compute; exact I).
  split; [exact H|].
  destruct (keys_match_preserved two_users H) as (_ & _ & Hdelete & _ & _).
  eexists _, _. split; [reflexivity|].
  assert (H1 : keys_match
                 (mkWorld (heap two_users) (delete "id-1" (store two_users)) (emitted two_users)))
    by (apply (Hdelete "id-1" None); reflexivity).
  split; [exact H1|].
  destruct (keys_match_preserved _ H1) as (Hcreate & _).
  split; [reflexivity|].
  apply (Hcreate (Some 1%positive) None). reflexivity.
Defined.

(** ** The service over any repository *)

Section ServiceFacts.
Context {S : Type}.
Variable repo : UserRepository.t S.

(** The field assignments of [UpdateUser] and what follows them. *)
Lemma UpdateUser_apply_run req l u (w : World S) :
  heap w !! l = Some u →
  UserService.UpdateUser_apply repo req (Some l) w =
    (err ← UserRepository.Update repo (Some l);
     match err with
     | Some _ => mret (None, Some ErrInternalServer)
     | None =>
         IncOperation "update" "success";;
         u ← deref (Some l);
         mret (Some (ToResponse u), None)
     end)
    (mkWorld (<[l := apply_request (mkUserUpdateRequest None (update_Name req)
                                     (update_Role req) (update_Active req)) u]> (heap w))
             (store w) (emitted w)).
Proof.
  intros Hl. unfold UserService.UpdateUser_apply.
  assert (Hid : ∀ v : User, heap w !! l = Some v →
            w = mkWorld (<[l := v]> (heap w)) (store w) (emitted w)).
  { intros v Hv. apply World_eq; simpl; [|done..]. by rewrite insert_id. }
  destruct req as [e [n|] [r|] [a|]]; simpl;
    repeat (rewrite bind_run;
            first [ erewrite assign_run by (simpl; first [eassumption | apply lookup_insert_eq])
                  | change ((mret tt : Go S unit) ?w) with (Some (tt, w)) ];
            simpl; rewrite ?insert_insert_eq);
    try (destruct u; reflexivity).
  rewrite (Hid u Hl) at 1. destruct u; reflexivity.
Qed.

(** *** Repository failures, call site by call site *)

Lemma CreateUser_GetByEmail_fails rt req w r e w1 :
  UserRepository.GetByEmail repo (create_Email req) w = Some ((r, Some e), w1) →
  UserService.CreateUser repo rt req w = Some ((None, Some ErrInternalServer), w1).
Proof. intros H. unfold UserService.CreateUser. by rewrite bind_run, H. Qed.

Lemma CreateUser_Create_fails rt req w w1 user w2 e w3 :
  UserRepository.GetByEmail repo (create_Email req) w = Some ((None, None), w1) →
  NewUser (rt_uuid rt) (rt_now rt) (create_Email req) (create_Name req)
          (create_Role req) w1 = Some (user, w2) →
  UserRepository.Create repo user w2 = Some (Some e, w3) →
  UserService.CreateUser repo rt req w = Some ((None, Some ErrInternalServer), w3).
Proof.
  intros H1 H2 H3. unfold UserService.CreateUser.
  rewrite bind_run, H1. simpl. rewrite bind_run, H2. by rewrite bind_run, H3.
Qed.

Lemma GetUser_GetByID_fails id w r e w1 :
  UserRepository.GetByID repo id w = Some ((r, Some e), w1) →
  UserService.GetUser repo id w = Some ((None, Some ErrInternalServer), w1).
Proof. intros H. unfold UserService.GetUser. by rewrite bind_run, H. Qed.

Lemma ListUsers_List_fails page pageSize w r e w1 :
  UserRepository.List repo (clamp_pageSize pageSize)
    (int_mul (int_sub (clamp_page page) 1) (clamp_pageSize pageSize)) w
    = Some ((r, Some e), w1) →
  UserService.ListUsers repo page pageSize w = Some ((None, Some ErrInternalServer), w1).
Proof.
  intros H. unfold UserService.ListUsers.
  replace (bool_decide (pageSize < 1)) with (bool_decide (pageSize ≤ 0))
    by (apply bool_decide_ext; lia).
  fold (clamp_page page). fold (clamp_pageSize pageSize).
  by rewrite bind_run, H.
Qed.

Lemma ListUsers_Count_fails page pageSize w users w1 n e w2 :
  UserRepository.List repo (clamp_pageSize pageSize)
    (int_mul (int_sub (clamp_page page) 1) (clamp_pageSize pageSize)) w
    = Some ((users, None), w1) →
  UserRepository.Count repo w1 = Some ((n, Some e), w2) →
  UserService.ListUsers repo page pageSize w = Some ((None, Some ErrInternalServer), w2).
Proof.
  intros H1 H2. unfold UserService.ListUsers.
  replace (bool_decide (pageSize < 1)) with (bool_decide (pageSize ≤ 0))
    by (apply bool_decide_ext; lia).
  fold (clamp_page page). fold (clamp_pageSize pageSize).
  rewrite bind_run, H1. simpl. by rewrite bind_run, H2.
Qed.

Lemma UpdateUser_GetByID_fails rt id req w r e w1 :
  UserRepository.GetByID repo id w = Some ((r, Some e), w1) →
  UserService.UpdateUser repo rt id req w = Some ((None, Some ErrInternalServer), w1).
Proof. intros H. unfold UserService.UpdateUser. by rewrite bind_run, H. Qed.

Lemma UpdateUser_GetByEmail_fails rt id req email w l w1 r e w2 :
  update_Email req = Some email →
  UserRepository.GetByID repo id w = Some ((Some l, None), w1) →
  UserRepository.GetByEmail repo email w1 = Some ((r, Some e), w2) →
  UserService.UpdateUser repo rt id req w = Some ((None, Some ErrInternalServer), w2).
Proof.
  intros He H1 H2. unfold UserService.UpdateUser.
  rewrite bind_run, H1. simpl. rewrite He. by rewrite bind_run, H2.
Qed.

Lemma UpdateUser_no_email rt id req w l u w1 :
  update_Email req = None →
  UserRepository.GetByID repo id w = Some ((Some l, None), w1) →
  heap w1 !! l = Some u →
  UserService.UpdateUser repo rt id req w =
    (err ← UserRepository.Update repo (Some l);
     match err with
     | Some _ => mret (None, Some ErrInternalServer)
     | None =>
         IncOperation "update" "success";;
         u ← deref (Some l);
         mret (Some (ToResponse u), None)
     end) (updated req l u w1).
Proof.
  intros He H1 Hl. unfold UserService.UpdateUser.
  rewrite bind_run, H1. simpl. rewrite He.
  rewrite (UpdateUser_apply_run _ _ _ _ Hl).
  destruct req; simpl in He; subst; reflexivity.
Qed.

Lemma UpdateUser_email_free rt id req email w l u w1 existing w2 :
  update_Email req = Some email →
  UserRepository.GetByID repo id w = Some ((Some l, None), w1) →
  UserRepository.GetByEmail repo email w1 = Some ((existing, None), w2) →
  (existing = None ∨ ID <$> pointee w2 existing = Some id) →
  heap w2 !! l = Some u →
  UserService.UpdateUser repo rt id req w =
    (err ← UserRepository.Update repo (Some l);
     match err with
     | Some _ => mret (None, Some ErrInternalServer)
     | None =>
         IncOperation "update" "success";;
         u ← deref (Some l);
         mret (Some (ToResponse u), None)
     end) (updated req l u w2).
Proof.
  intros He H1 H2 Hfree Hl. unfold UserService.UpdateUser.
  rewrite bind_run, H1. simpl. rewrite He. rewrite bind_run, H2. simpl.
  assert (Htaken :
    (match existing with
     | Some _ => e ← deref existing; mret (bool_decide (ID e ≠ id))
     | None => mret false
     end : Go S bool) w2 = Some (false, w2)).
  { destruct Hfree as [->|Hself]; [done|].
    destruct (pointee w2 existing) as [ex|] eqn:Hex; [|done].
    injection Hself as Hself.
    destruct existing as [le|]; [|done].
    rewrite (bind_run_Some _ _ _ _ _ (deref_run _ _ _ Hex)).
    by rewrite bool_decide_eq_false_2 by (intros Hne; by apply Hne). }
  rewrite bind_run, Htaken.
  rewrite bind_run, (assign_run _ _ _ _ Hl).
  erewrite UpdateUser_apply_run by (simpl; apply lookup_insert_eq).
  unfold updated. simpl. rewrite insert_insert_eq.
  destruct req, u; simpl in He; subst; reflexivity.
Qed.

Lemma UpdateUser_email_taken rt id req email w l w1 existing ex w2 :
  update_Email req = Some email →
  UserRepository.GetByID repo id w = Some ((Some l, None), w1) →
  UserRepository.GetByEmail repo email w1 = Some ((existing, None), w2) →
  pointee w2 existing = Some ex → ID ex ≠ id →
  UserService.UpdateUser repo rt id req w =
    Some ((None, Some (AppError ErrCodeConflict "Email is already in use" email None
                         (rt_stack rt))), w2).
Proof.
  intros He H1 H2 Hex Hne. unfold UserService.UpdateUser.
  rewrite bind_run, H1. simpl. rewrite He. rewrite bind_run, H2. simpl.
  destruct existing as [le|]; [|done].
  rewrite bind_run. rewrite (bind_run_Some _ _ _ _ _ (deref_run _ _ _ Hex)).
  change ((mret (bool_decide (ID ex ≠ id)) : Go S bool) w2)
    with (Some (bool_decide (ID ex ≠ id), w2)).
  by rewrite bool_decide_eq_true_2.
Qed.

Lemma DeleteUser_GetByID_fails id w r e w1 :
  UserRepository.GetByID repo id w = Some ((r, Some e), w1) →
  UserService.DeleteUser repo id w = Some (Some ErrInternalServer, w1).
Proof. intros H. unfold UserService.DeleteUser. by rewrite bind_run, H. Qed.

Lemma DeleteUser_Delete_fails id w l w1 e w2 :
  UserRepository.GetByID repo id w = Some ((Some l, None), w1) →
  UserRepository.Delete repo id w1 = Some (Some e, w2) →
  UserService.DeleteUser repo id w = Some (Some ErrInternalServer, w2).
Proof.
  intros H1 H2. unfold UserService.DeleteUser.
  rewrite bind_run, H1. simpl. by rewrite bind_run, H2.
Qed.
End ServiceFacts.

(** ** Repository errors never reach the caller *)

Lemma ErrInternalServer_fixed :
  HTTPStatus ErrInternalServer = 500 ∧
  Error ErrInternalServer = "An unexpected error occurred" ∧
  Unwrap ErrInternalServer = None.
Proof. done. Qed.

(** C8: whichever repository call of CreateUser, GetUser, ListUsers,
    UpdateUser or DeleteUser returns an error, and whatever that error is,
    the operation returns the fixed value ErrInternalServer: HTTP code 500,
    text "An unexpected error occurred", wrapping nothing.  There is one
    conjunct per repository call of the five operations, each under the
    hypothesis that the calls before it succeeded. *)
Theorem repository_errors_are_generic {S : Type} (repo : UserRepository.t S)
    (rt : Runtime) (w : World S) (e : error) :
  (HTTPStatus ErrInternalServer = 500 ∧
   Error ErrInternalServer = "An unexpected error occurred" ∧
   Unwrap ErrInternalServer = None) ∧
  (∀ req r w1,
     UserRepository.GetByEmail repo (create_Email req) w = Some ((r, Some e), w1) →
     UserService.CreateUser repo rt req w = Some ((None, Some ErrInternalServer), w1)) ∧
  (∀ req w1 user w2 w3,
     UserRepository.GetByEmail repo (create_Email req) w = Some ((None, None), w1) →
     NewUser (rt_uuid rt) (rt_now rt) (create_Email req) (create_Name req)
             (create_Role req) w1 = Some (user, w2) →
     UserRepository.Create repo user w2 = Some (Some e, w3) →
     UserService.CreateUser repo rt req w = Some ((None, Some ErrInternalServer), w3)) ∧
  (∀ id r w1,
     UserRepository.GetByID repo id w = Some ((r, Some e), w1) →
     UserService.GetUser repo id w = Some ((None, Some ErrInternalServer), w1)) ∧
  (∀ page pageSize r w1,
     UserRepository.List repo (clamp_pageSize pageSize)
       (int_mul (int_sub (clamp_page page) 1) (clamp_pageSize pageSize)) w
       = Some ((r, Some e), w1) →
     UserService.ListUsers repo page pageSize w
       = Some ((None, Some ErrInternalServer), w1)) ∧
  (∀ page pageSize users w1 n w2,
     UserRepository.List repo (clamp_pageSize pageSize)
       (int_mul (int_sub (clamp_page page) 1) (clamp_pageSize pageSize)) w
       = Some ((users, None), w1) →
     UserRepository.Count repo w1 = Some ((n, Some e), w2) →
     UserService.ListUsers repo page pageSize w
       = Some ((None, Some ErrInternalServer), w2)) ∧
  (∀ id req r w1,
     UserRepository.GetByID repo id w = Some ((r, Some e), w1) →
     UserService.UpdateUser repo rt id req w
       = Some ((None, Some ErrInternalServer), w1)) ∧
  (∀ id req email l w1 r w2,
     update_Email req = Some email →
     UserRepository.GetByID repo id w = Some ((Some l, None), w1) →
     UserRepository.GetByEmail repo email w1 = Some ((r, Some e), w2) →
     UserService.UpdateUser repo rt id req w
       = Some ((None, Some ErrInternalServer), w2)) ∧
  (∀ id req l u w1 w2,
     update_Email req = None →
     UserRepository.GetByID repo id w = Some ((Some l, None), w1) →
     heap w1 !! l = Some u →
     UserRepository.Update repo (Some l) (updated req l u w1) = Some (Some e, w2) →
     UserService.UpdateUser repo rt id req w
       = Some ((None, Some ErrInternalServer), w2)) ∧
  (∀ id req email l u w1 existing w2 w3,
     update_Email req = Some email →
     UserRepository.GetByID repo id w = Some ((Some l, None), w1) →
     UserRepository.GetByEmail repo email w1 = Some ((existing, None), w2) →
     (existing = None ∨ ID <$> pointee w2 existing = Some id) →
     heap w2 !! l = Some u →
     UserRepository.Update repo (Some l) (updated req l u w2) = Some (Some e, w3) →
     UserService.UpdateUser repo rt id req w
       = Some ((None, Some ErrInternalServer), w3)) ∧
  (∀ id r w1,
     UserRepository.GetByID repo id w = Some ((r, Some e), w1) →
     UserService.DeleteUser repo id w = Some (Some ErrInternalServer, w1)) ∧
  (∀ id l w1 w2,
     UserRepository.GetByID repo id w = Some ((Some l, None), w1) →
     UserRepository.Delete repo id w1 = Some (Some e, w2) →
     UserService.DeleteUser repo id w = Some (Some ErrInternalServer, w2)).
Proof.
  split; [exact ErrInternalServer_fixed|].
  split_and!; intros.
  - eapply CreateUser_GetByEmail_fails; eassumption.
  - eapply CreateUser_Create_fails; eassumption.
  - eapply GetUser_GetByID_fails; eassumption.
  - eapply ListUsers_List_fails; eassumption.
  - eapply ListUsers_Count_fails; eassumption.
  - eapply UpdateUser_GetByID_fails; eassumption.
  - eapply UpdateUser_GetByEmail_fails; eassumption.
  - erewrite UpdateUser_no_email by eassumption.
    by erewrite bind_run_Some by eassumption.
  - erewrite UpdateUser_email_free by eassumption.
    by erewrite bind_run_Some by eassumption.
  - eapply DeleteUser_GetByID_fails; eassumption.
  - eapply DeleteUser_Delete_fails; eassumption.
Qed.

Lemma repository_errors_are_generic_witness :
  UserService.UpdateUser (faultyRepo map_to_list read_only) rt0 "id-1" (rename "Anna") two_users
    = Some ((None, Some ErrInternalServer), updated (rename "Anna") 1%positive ann two_users) ∧
  UserService.DeleteUser (faultyRepo map_to_list read_only) "id-1" two_users
    = Some (Some ErrInternalServer, two_users).
Proof.
  pose proof (repository_errors_are_generic (faultyRepo map_to_list read_only) rt0 two_users
                (errorString "pq: cannot execute in a read-only transaction"))
    as (_ & _ & _ & _ & _ & _ & _ & _ & Hupdate & _ & _ & Hdelete).
  split.
  - apply (Hupdate "id-1" (rename "Anna") 1%positive ann two_users); reflexivity.
  - apply (Hdelete "id-1" 1%positive two_users); reflexivity.
Defined.

(** ** The HTTP handler for GET /api/v1/users/{id} *)

(** C4, as the code has it: for every id the handler writes status 200 (on
    a writer whose status is not yet written) and a JSON user made of that
    id and fixed placeholder fields (email user@example.com, name Test User,
    role user, active), and counts the request; it consults no service or
    repository, so it answers the same whether or not a user with that id
    exists, and never answers 404. *)
Theorem GetUser_handler_always_200 (id : string) (h : gmap positive User)
    (rw : ResponseWriter) (ms : list Metric) :
  ∃ rw',
    Handlers.GetUser id (mkWorld h rw ms)
      = Some (tt, mkWorld h rw' (RequestInc "get_user" :: ms)) ∧
    rw_header rw' = <["Content-Type" := "application/json"]> (rw_header rw) ∧
    rw_status rw' = Some (default StatusOK (rw_status rw)) ∧
    rw_body rw' = rw_body rw ++
      [UserPayload (mkUserResponse id "user@example.com" "Test User" "user" true 0 0)] ∧
    (rw = newResponseWriter → rw_status rw' = Some StatusOK).
Proof.
  eexists. split; [reflexivity|]. simpl.
  split_and!; try reflexivity.
  - by destruct (rw_status rw).
  - by intros ->.
Qed.

(** No user has id 123 in the empty repository (the service answers not
    found, code 404), and the handler still answers 200. *)
Lemma GetUser_handler_not_404 :
  (InMemoryUserRepository.NewInMemoryUserRepository !! "123" = None ∧
   UserService.GetUser (InMemoryUserRepository.repo map_to_list) "123"
     (mkWorld ∅ InMemoryUserRepository.NewInMemoryUserRepository [])
     = Some ((None, Some (NotFoundError "User" "123")),
             mkWorld ∅ InMemoryUserRepository.NewInMemoryUserRepository []) ∧
   HTTPStatus (NotFoundError "User" "123") = StatusNotFound) ∧
  (rw_status ∘ store ∘ snd <$> Handlers.GetUser "123" (mkWorld ∅ newResponseWriter [])
     = Some (Some StatusOK)) ∧
  StatusOK ≠ StatusNotFound.
Proof. split_and!; done. Qed.

(** ** The service over the in-memory repository *)

Section InMemoryService.
Variable order : gmap string (option positive) → list (string * ptr).
Hypothesis order_perm : range_order order.

Local Abbreviation repo := (InMemoryUserRepository.repo order).

Lemma CreateUser_taken_run rt req w :
  entries_valid w → email_taken w (create_Email req) →
  UserService.CreateUser repo rt req w =
    Some ((None, Some (AppError ErrCodeConflict "User with this email already exists"
                         (create_Email req) None (rt_stack rt))), w).
Proof.
  intros Hv Htaken.
  destruct (InMemoryFacts.GetByEmail_found order order_perm w _ Hv Htaken)
    as (k & l & u & _ & _ & _ & Hrun).
  unfold UserService.CreateUser. rewrite bind_run. simpl.
  by rewrite Hrun.
Qed.

Lemma CreateUser_fresh_run rt req w :
  entries_valid w → ¬ email_taken w (create_Email req) →
  UserService.CreateUser repo rt req w =
    Some ((Some (ToResponse (created rt req)), None),
          mkWorld (<[fresh (dom (heap w)) := created rt req]> (heap w))
                  (<[rt_uuid rt := Some (fresh (dom (heap w)))]> (store w))
                  (OperationInc "create" "success" :: UsersInc :: emitted w)).
Proof.
  intros Hv Hfree.
  unfold UserService.CreateUser. rewrite bind_run. simpl.
  rewrite (InMemoryFacts.GetByEmail_none order order_perm w _ Hv Hfree).
  rewrite bind_run. unfold NewUser at 1, alloc at 1. cbv beta zeta.
  rewrite bind_run.
  erewrite InMemoryFacts.Create_run by (simpl; apply lookup_insert_eq).
  simpl.
  rewrite bind_run. unfold IncUsers at 1, emit at 1. simpl.
  rewrite bind_run. unfold IncOperation at 1, emit at 1. simpl.
  rewrite bind_run. unfold deref at 1. simpl. rewrite lookup_insert_eq.
  reflexivity.
Qed.

Lemma stored_lookup w k u :
  stored w k u ↔ ∃ l, store w !! k = Some (Some l) ∧ heap w !! l = Some u.
Proof.
  split.
  - intros ([l|] & Hk & Hp); [|done]. by exists l.
  - intros (l & Hk & Hl). by exists (Some l).
Qed.

Lemma GetUser_absent_run w id :
  store w !! id = None →
  UserService.GetUser repo id w = Some ((None, Some (NotFoundError "User" id)), w).
Proof.
  intros Hid. unfold UserService.GetUser. rewrite bind_run. simpl.
  rewrite InMemoryFacts.GetByID_run, Hid. reflexivity.
Qed.

Lemma GetUser_stored_run w id u :
  stored w id u →
  UserService.GetUser repo id w =
    Some ((Some (ToResponse u), None),
          mkWorld (heap w) (store w) (OperationInc "get" "success" :: emitted w)).
Proof.
  intros (l & Hid & Hl)%stored_lookup. unfold UserService.GetUser.
  rewrite bind_run. simpl. rewrite InMemoryFacts.GetByID_run, Hid. simpl.
  rewrite bind_run. unfold IncOperation at 1, emit at 1. simpl.
  rewrite bind_run. unfold deref. simpl. by rewrite Hl.
Qed.

Lemma DeleteUser_absent_run w id :
  store w !! id = None →
  UserService.DeleteUser repo id w = Some (Some (NotFoundError "User" id), w).
Proof.
  intros Hid. unfold UserService.DeleteUser. rewrite bind_run. simpl.
  rewrite InMemoryFacts.GetByID_run, Hid. reflexivity.
Qed.

Lemma DeleteUser_stored_run w id u :
  stored w id u →
  UserService.DeleteUser repo id w =
    Some (None, mkWorld (heap w) (delete id (store w))
                        (OperationInc "delete" "success" :: emitted w)).
Proof.
  intros (l & Hid & Hl)%stored_lookup. unfold UserService.DeleteUser.
  rewrite bind_run. simpl. rewrite InMemoryFacts.GetByID_run, Hid. reflexivity.
Qed.

(** The world a successful [UpdateUser] leaves. *)
Lemma UpdateUser_finish req l u (w : World (gmap string (option positive))) :
  store w !! ID u = Some (Some l) →
  (err ← UserRepository.Update repo (Some l);
   match err with
   | Some _ => mret (None, Some ErrInternalServer)
   | None =>
       IncOperation "update" "success";;
       u ← deref (Some l);
       mret (Some (ToResponse u), None)
   end) (updated req l u w) =
  Some ((Some (ToResponse (apply_request req u)), None),
        mkWorld (<[l := apply_request req u]> (heap w)) (store w)
                (OperationInc "update" "success" :: emitted w)).
Proof.
  intros Hid. rewrite bind_run. simpl.
  erewrite InMemoryFacts.Update_run by (simpl; apply lookup_insert_eq).
  simpl. rewrite (insert_id _ _ _ Hid).
  rewrite bind_run. unfold IncOperation at 1, emit at 1. simpl.
  rewrite bind_run. unfold deref. simpl. by rewrite lookup_insert_eq.
Qed.

Lemma UpdateUser_no_email_run rt req l u w :
  update_Email req = None →
  store w !! ID u = Some (Some l) → heap w !! l = Some u →
  UserService.UpdateUser repo rt (ID u) req w =
    Some ((Some (ToResponse (apply_request req u)), None),
          mkWorld (<[l := apply_request req u]> (heap w)) (store w)
                  (OperationInc "update" "success" :: emitted w)).
Proof.
  intros He Hid Hl.
  erewrite UpdateUser_no_email; [by apply UpdateUser_finish|done| |done].
  simpl. by rewrite InMemoryFacts.GetByID_run, Hid.
Qed.

Lemma UpdateUser_email_free_run rt req email l u w :
  keys_match w →
  update_Email req = Some email →
  store w !! ID u = Some (Some l) → heap w !! l = Some u →
  ¬ email_taken_by_other w (ID u) email →
  UserService.UpdateUser repo rt (ID u) req w =
    Some ((Some (ToResponse (apply_request req u)), None),
          mkWorld (<[l := apply_request req u]> (heap w)) (store w)
                  (OperationInc "update" "success" :: emitted w)).
Proof.
  intros Hkeys He Hid Hl Hfree.
  assert (Hv : entries_valid w).
  { intros k p Hk. specialize (Hkeys k p Hk). simpl in Hkeys.
    destruct (pointee w p); [by eexists|done]. }
  assert (Hget : UserRepository.GetByID repo (ID u) w = Some ((Some l, None), w)).
  { simpl. by rewrite InMemoryFacts.GetByID_run, Hid. }
  destruct (decide (email_taken w email)) as [Htaken|Hnot].
  - destruct (InMemoryFacts.GetByEmail_found order order_perm w _ Hv Htaken)
      as (k' & l' & u' & Hk' & Hl' & He' & Hrun).
    erewrite UpdateUser_email_free; [by apply UpdateUser_finish|done|exact Hget|exact Hrun| |done].
    right. simpl. rewrite Hl'. simpl. f_equal.
    pose proof (Hkeys k' _ Hk') as Hkey. simpl in Hkey. rewrite Hl' in Hkey.
    injection Hkey as Hkey. rewrite Hkey.
    destruct (decide (k' = ID u)) as [|Hne]; [done|].
    exfalso. apply Hfree. exists k', (Some l'). split_and!; [done..|].
    simpl. rewrite Hl'. simpl. congruence.
  - erewrite UpdateUser_email_free; [by apply UpdateUser_finish|done|exact Hget| |by left|done].
    simpl. by apply InMemoryFacts.GetByEmail_none.
Qed.

Lemma UpdateUser_email_taken_run rt req email l u w :
  keys_match w → emails_unique w →
  update_Email req = Some email →
  store w !! ID u = Some (Some l) → heap w !! l = Some u →
  email_taken_by_other w (ID u) email →
  UserService.UpdateUser repo rt (ID u) req w =
    Some ((None, Some (AppError ErrCodeConflict "Email is already in use" email None
                         (rt_stack rt))), w).
Proof.
  intros Hkeys Huniq He Hid Hl (k & p & Hk & Hne & Hp).
  assert (Hv : entries_valid w).
  { intros k0 p0 Hk0. specialize (Hkeys k0 p0 Hk0). simpl in Hkeys.
    destruct (pointee w p0); [by eexists|done]. }
  assert (Htaken : email_taken w email) by (by exists k, p).
  destruct (InMemoryFacts.GetByEmail_found order order_perm w _ Hv Htaken)
    as (k' & l' & u' & Hk' & Hl' & He' & Hrun).
  eapply UpdateUser_email_taken; [done| |exact Hrun|exact Hl'|].
  - simpl. by rewrite InMemoryFacts.GetByID_run, Hid.
  - pose proof (Hkeys k' _ Hk') as Hkey. simpl in Hkey. rewrite Hl' in Hkey.
    injection Hkey as Hkey. rewrite Hkey. intros ->.
    (* the entry found is [ID u]'s own, so two entries share the email *)
    apply (Huniq k p Hk (ID u) (Some l') Hk' Hne).
    rewrite Hp. simpl. rewrite Hl'. simpl. congruence.
Qed.
End InMemoryService.

(** ** Creating users *)

(** C1: in every state of the in-memory repository whose entries lead to
    users, CreateUser with an email some stored user has returns the
    conflict error (code 409) and the state it was called in, unchanged;
    with an email no stored user has it builds the new User, puts it at a
    new address and stores that address under the new identifier. *)
Theorem CreateUser_conflict_or_persist
    (order : gmap string (option positive) → list (string * ptr))
    (rt : Runtime) (req : UserCreateRequest) (w : World (gmap string (option positive))) :
  range_order order →
  entries_valid w →
  (email_taken w (create_Email req) →
     ∃ e, UserService.CreateUser (InMemoryUserRepository.repo order) rt req w
            = Some ((None, Some e), w) ∧
          HTTPStatus e = 409 ∧
          e = AppError ErrCodeConflict "User with this email already exists"
                (create_Email req) None (rt_stack rt)) ∧
  (¬ email_taken w (create_Email req) →
     ∃ l w',
       UserService.CreateUser (InMemoryUserRepository.repo order) rt req w
         = Some ((Some (ToResponse (created rt req)), None), w') ∧
       heap w !! l = None ∧
       heap w' = <[l := created rt req]> (heap w) ∧
       store w' = <[rt_uuid rt := Some l]> (store w) ∧
       stored w' (rt_uuid rt) (created rt req)).
Proof.
  intros Hord Hv. split.
  - intros Htaken. eexists. split; [by apply CreateUser_taken_run|done].
  - intros Hfree. eexists _, _. split; [by apply CreateUser_fresh_run|].
    split_and!; simpl; try reflexivity.
    + apply not_elem_of_dom, is_fresh.
    + exists (Some (fresh (dom (heap w)))). simpl.
      by rewrite !lookup_insert_eq.
Qed.

Lemma CreateUser_conflict_or_persist_witness :
  (∃ e, UserService.CreateUser (InMemoryUserRepository.repo map_to_list) rt0
          (mkUserCreateRequest "ann@example.com" "Another Ann" "viewer") two_users
          = Some ((None, Some e), two_users) ∧
        HTTPStatus e = 409 ∧
        e = AppError ErrCodeConflict "User with this email already exists"
              "ann@example.com" None (rt_stack rt0)) ∧
  (∃ l w',
     UserService.CreateUser (InMemoryUserRepository.repo map_to_list) rt0
       (mkUserCreateRequest "cy@example.com" "Cy" "viewer") two_users
       = Some ((Some (ToResponse (created rt0 (mkUserCreateRequest "cy@example.com" "Cy" "viewer"))), None), w') ∧
     heap two_users !! l = None ∧
     heap w' = <[l := created rt0 (mkUserCreateRequest "cy@example.com" "Cy" "viewer")]> (heap two_users) ∧
     store w' = <[rt_uuid rt0 := Some l]> (store two_users) ∧
     stored w' (rt_uuid rt0) (created rt0 (mkUserCreateRequest "cy@example.com" "Cy" "viewer"))).
Proof.
  assert (Hord : range_order map_to_list) by (intros m; reflexivity).
  assert (Hv : entries_valid two_users)
    by (refine (bool_decide_unpack _ _); vm_compute; exact I).
  split.
  - apply (CreateUser_conflict_or_persist map_to_list rt0
             (mkUserCreateRequest "ann@example.com" "Another Ann" "viewer")
             two_users Hord Hv).
    refine (bool_decide_unpack _ _). vm_compute. exact I.
  - apply (CreateUser_conflict_or_persist map_to_list rt0
             (mkUserCreateRequest "cy@example.com" "Cy" "viewer")
             two_users Hord Hv).
    refine (bool_decide_unpack _ _). vm_compute. exact I.
Defined.

(** C5: when no stored user has the request's email, CreateUser succeeds;
    the record it returns has the request's email, name and role, is
    active, and has both timestamps set to the instant of creation, hence
    equal. *)
Theorem CreateUser_fresh_email
    (order : gmap string (option positive) → list (string * ptr))
    (rt : Runtime) (req : UserCreateRequest) (w : World (gmap string (option positive))) :
  range_order order →
  entries_valid w →
  ¬ email_taken w (create_Email req) →
  ∃ resp w',
    UserService.CreateUser (InMemoryUserRepository.repo order) rt req w
      = Some ((Some resp, None), w') ∧
    resp_Email resp = create_Email req ∧
    resp_Name resp = create_Name req ∧
    resp_Role resp = create_Role req ∧
    resp_Active resp = true ∧
    resp_CreatedAt resp = rt_now rt ∧
    resp_UpdatedAt resp = rt_now rt ∧
    resp_CreatedAt resp = resp_UpdatedAt resp.
Proof.
  intros Hord Hv Hfree. eexists _, _.
  split; [by apply CreateUser_fresh_run|]. by split_and!.
Qed.

Lemma CreateUser_fresh_email_witness :
  ∃ resp w',
    UserService.CreateUser (InMemoryUserRepository.repo map_to_list) rt0
      (mkUserCreateRequest "cy@example.com" "Cy" "viewer") two_users
      = Some ((Some resp, None), w') ∧
    resp_Email resp = "cy@example.com" ∧
    resp_Name resp = "Cy" ∧
    resp_Role resp = "viewer" ∧
    resp_Active resp = true ∧
    resp_CreatedAt resp = 3000 ∧
    resp_UpdatedAt resp = 3000 ∧
    resp_CreatedAt resp = resp_UpdatedAt resp.
Proof.
  apply (CreateUser_fresh_email map_to_list rt0
           (mkUserCreateRequest "cy@example.com" "Cy" "viewer") two_users).
  - intros m. reflexivity.
  - refine (bool_decide_unpack _ _). vm_compute. exact I.
  - refine (bool_decide_unpack _ _). vm_compute. exact I.
Defined.

(** ** Deleting users *)

(** C6: for a user u stored under its ID, DeleteUser(u.ID) succeeds and
    removes the entry; GetUser(u.ID) then returns the not-found error (code
    404), and so does a second DeleteUser(u.ID). *)
Theorem DeleteUser_then_not_found
    (order : gmap string (option positive) → list (string * ptr))
    (u : User) (w : World (gmap string (option positive))) :
  stored w (ID u) u →
  ∃ w1,
    UserService.DeleteUser (InMemoryUserRepository.repo order) (ID u) w = Some (None, w1) ∧
    store w1 = delete (ID u) (store w) ∧
    UserService.GetUser (InMemoryUserRepository.repo order) (ID u) w1
      = Some ((None, Some (NotFoundError "User" (ID u))), w1) ∧
    UserService.DeleteUser (InMemoryUserRepository.repo order) (ID u) w1
      = Some (Some (NotFoundError "User" (ID u)), w1) ∧
    HTTPStatus (NotFoundError "User" (ID u)) = 404.
Proof.
  intros Hu. eexists. split; [by eapply DeleteUser_stored_run|].
  split_and!; [done| | |done].
  - apply GetUser_absent_run. simpl. apply lookup_delete_eq.
  - apply DeleteUser_absent_run. simpl. apply lookup_delete_eq.
Qed.

Lemma DeleteUser_then_not_found_witness :
  ∃ w1,
    UserService.DeleteUser (InMemoryUserRepository.repo map_to_list) "id-1" two_users
      = Some (None, w1) ∧
    store w1 = delete "id-1" (store two_users) ∧
    UserService.GetUser (InMemoryUserRepository.repo map_to_list) "id-1" w1
      = Some ((None, Some (NotFoundError "User" "id-1")), w1) ∧
    UserService.DeleteUser (InMemoryUserRepository.repo map_to_list) "id-1" w1
      = Some (Some (NotFoundError "User" "id-1"), w1) ∧
    HTTPStatus (NotFoundError "User" "id-1") = 404.
Proof.
  apply (DeleteUser_then_not_found map_to_list ann two_users).
  exists (Some 1%positive). split; reflexivity.
Defined.

(** ** Updating users *)

(** C7: for a user u stored under its ID and a request that sets only the
    name, UpdateUser(u.ID, request) succeeds, and the record then stored
    under u.ID has the new name, u's email and role, u's created-at, and an
    updated-at not earlier than u's (the in-memory repository leaves it as it
    was). *)
Theorem UpdateUser_name_only
    (order : gmap string (option positive) → list (string * ptr))
    (rt : Runtime) (u : User) (name : string) (w : World (gmap string (option positive))) :
  stored w (ID u) u →
  ∃ resp w' u',
    UserService.UpdateUser (InMemoryUserRepository.repo order) rt (ID u)
      (mkUserUpdateRequest None (Some name) None None) w
      = Some ((Some resp, None), w') ∧
    stored w' (ID u) u' ∧
    resp = ToResponse u' ∧
    Name u' = name ∧
    Email u' = Email u ∧
    Role u' = Role u ∧
    CreatedAt u' = CreatedAt u ∧
    UpdatedAt u ≤ UpdatedAt u'.
Proof.
  intros (l & Hid & Hl)%stored_lookup. eexists _, _, _.
  split; [by eapply UpdateUser_no_email_run|].
  split_and!; try done; simpl; try lia.
  apply stored_lookup. exists l. simpl. by rewrite lookup_insert_eq.
Qed.

Lemma UpdateUser_name_only_witness :
  ∃ resp w' u',
    UserService.UpdateUser (InMemoryUserRepository.repo map_to_list) rt0 "id-1"
      (mkUserUpdateRequest None (Some "Anna") None None) two_users
      = Some ((Some resp, None), w') ∧
    stored w' "id-1" u' ∧
    resp = ToResponse u' ∧
    Name u' = "Anna" ∧
    Email u' = "ann@example.com" ∧
    Role u' = "admin" ∧
    CreatedAt u' = 1000 ∧
    1000 ≤ UpdatedAt u'.
Proof.
  apply (UpdateUser_name_only map_to_list rt0 ann "Anna" two_users).
  exists (Some 1%positive). split; reflexivity.
Defined.

(** C3: in a state of the in-memory repository where keys are the users'
    IDs and no two users share an email, for a user u stored under its ID
    and a request whose email field is set: UpdateUser(u.ID, request)
    returns the conflict error (code 409), changing nothing, when an entry
    other than u's has that email; otherwise it succeeds and the record
    stored under u.ID becomes u with exactly the request's present fields
    replaced; in particular it succeeds for u's own current email. *)
Theorem UpdateUser_email_uniqueness
    (order : gmap string (option positive) → list (string * ptr))
    (rt : Runtime) (u : User) (req : UserUpdateRequest) (email : string)
    (w : World (gmap string (option positive))) :
  range_order order →
  keys_match w → emails_unique w →
  stored w (ID u) u →
  update_Email req = Some email →
  (email_taken_by_other w (ID u) email →
     ∃ e, UserService.UpdateUser (InMemoryUserRepository.repo order) rt (ID u) req w
            = Some ((None, Some e), w) ∧
          HTTPStatus e = 409 ∧
          e = AppError ErrCodeConflict "Email is already in use" email None (rt_stack rt)) ∧
  (¬ email_taken_by_other w (ID u) email →
     ∃ l w',
       UserService.UpdateUser (InMemoryUserRepository.repo order) rt (ID u) req w
         = Some ((Some (ToResponse (apply_request req u)), None), w') ∧
       store w !! ID u = Some (Some l) ∧
       heap w' = <[l := apply_request req u]> (heap w) ∧
       store w' = store w ∧
       stored w' (ID u) (apply_request req u)) ∧
  (email = Email u → ¬ email_taken_by_other w (ID u) email).
Proof.
  intros Hord Hkeys Huniq (l & Hid & Hl)%stored_lookup He. split_and!.
  - intros Hother. eexists. split; [by eapply UpdateUser_email_taken_run|done].
  - intros Hfree. exists l. eexists.
    split; [by eapply UpdateUser_email_free_run|].
    split_and!; try done.
    apply stored_lookup. exists l. simpl. by rewrite lookup_insert_eq.
  - intros -> (k & p & Hk & Hne & Hp).
    apply (Huniq k p Hk (ID u) (Some l) Hid Hne).
    rewrite Hp. simpl. by rewrite Hl.
Qed.

Lemma UpdateUser_email_uniqueness_witness :
  (∃ e, UserService.UpdateUser (InMemoryUserRepository.repo map_to_list) rt0 "id-1"
          (mkUserUpdateRequest (Some "bob@example.com") (Some "Anna") None None) two_users
          = Some ((None, Some e), two_users) ∧
        HTTPStatus e = 409 ∧
        e = AppError ErrCodeConflict "Email is already in use" "bob@example.com" None
              (rt_stack rt0)) ∧
  (∃ l w',
     UserService.UpdateUser (InMemoryUserRepository.repo map_to_list) rt0 "id-1"
       (mkUserUpdateRequest (Some "ann@example.com") (Some "Anna") None None) two_users
       = Some ((Some (ToResponse
                 (mkUser "id-1" "ann@example.com" "Anna" "admin" true 1000 1000)), None), w') ∧
     store two_users !! "id-1" = Some (Some l) ∧
     heap w' = <[l := mkUser "id-1" "ann@example.com" "Anna" "admin" true 1000 1000]>
                 (heap two_users) ∧
     store w' = store two_users ∧
     stored w' "id-1" (mkUser "id-1" "ann@example.com" "Anna" "admin" true 1000 1000)).
Proof.
  assert (Hord : range_order map_to_list) by (intros m; reflexivity).
  assert (Hkeys : keys_match two_users)
    by (refine (bool_decide_unpack _ _); vm_compute; exact I).
  assert (Huniq : emails_unique two_users)
    by (refine (bool_decide_unpack _ _); vm_compute; exact I).
  assert (Hann : stored two_users (ID ann) ann)
    by (exists (Some 1%positive); split; reflexivity).
  split.
  - apply (UpdateUser_email_uniqueness map_to_list rt0 ann
             (mkUserUpdateRequest (Some "bob@example.com") (Some "Anna") None None)
             "bob@example.com" two_users Hord Hkeys Huniq Hann eq_refl).
    refine (bool_decide_unpack _ _). vm_compute. exact I.
  - pose proof (UpdateUser_email_uniqueness map_to_list rt0 ann
             (mkUserUpdateRequest (Some "ann@example.com") (Some "Anna") None None)
             "ann@example.com" two_users Hord Hkeys Huniq Hann eq_refl)
      as (_ & Hfree & Hown).
    exact (Hfree (Hown eq_refl)).
Defined.

(** ** Listing users *)

Lemma int_wrap_id z : is_int z → int_wrap z = z.
Proof.
  unfold is_int, int_min, int_max, int_wrap. intros Hz.
  rewrite Z.mod_small; lia.
Qed.

Lemma int_wrap_sub_l a b : int_wrap (int_wrap a - b) = int_wrap (a - b).
Proof.
  unfold int_wrap.
  replace ((a + 2 ^ 63) mod 2 ^ 64 - 2 ^ 63 - b + 2 ^ 63)
    with ((a + 2 ^ 63) mod 2 ^ 64 - b) by lia.
  rewrite Zminus_mod_idemp_l. do 2 f_equal. lia.
Qed.

Lemma clamp_page_range page : is_int page → 1 ≤ clamp_page page ≤ int_max.
Proof.
  unfold is_int, clamp_page, int_min, int_max. intros Hp.
  case_bool_decide; lia.
Qed.

Lemma clamp_pageSize_range pageSize : 1 ≤ clamp_pageSize pageSize ≤ 100.
Proof.
  unfold clamp_pageSize.
  destruct (bool_decide (pageSize ≤ 0)) eqn:H1;
    destruct (bool_decide (pageSize > 100)) eqn:H2; simpl; try lia.
  apply bool_decide_eq_false in H1, H2. lia.
Qed.

(** The page count the code computes is the ceiling of the quotient. *)
Lemma totalPages_ceiling total pageSize :
  0 ≤ total ≤ int_max - 99 → 1 ≤ pageSize ≤ 100 →
  is_ceiling (int_div (int_sub (int_add total pageSize) 1) pageSize) total pageSize.
Proof.
  unfold int_max. intros Ht Hp. unfold int_div, int_sub, int_add.
  rewrite int_wrap_sub_l.
  rewrite (int_wrap_id (total + pageSize - 1))
    by (unfold is_int, int_min, int_max; lia).
  rewrite Z.quot_div_nonneg by lia.
  pose proof (Z.div_mod (total + pageSize - 1) pageSize ltac:(lia)) as Hdm.
  pose proof (Z.mod_pos_bound (total + pageSize - 1) pageSize ltac:(lia)) as Hm.
  assert (Hq : 0 ≤ (total + pageSize - 1) / pageSize ≤ total + pageSize - 1).
  { split; [apply Z.div_pos; lia|]. apply Z.div_le_upper_bound; nia. }
  rewrite int_wrap_id by (unfold is_int, int_min, int_max; lia).
  unfold is_ceiling. nia.
Qed.

Lemma ToResponses_run {S} (repo : UserRepository.t S) users (w : World S) :
  Forall (λ p, is_Some (pointee w p)) users →
  ∃ resps, UserService.ToResponses users w = Some (resps, w) ∧
           Forall2 (λ p r, ToResponse <$> pointee w p = Some r) users resps.
Proof.
  induction 1 as [|p users [u Hu] _ (resps & Hrun & Hall)].
  - exists []. split; [reflexivity|constructor].
  - exists (ToResponse u :: resps). split.
    + cbn [UserService.ToResponses].
      rewrite (bind_run_Some _ _ _ _ _ (deref_run _ _ _ Hu)).
      by rewrite bind_run, Hrun.
    + constructor; [by rewrite Hu|done].
Qed.

Lemma ListUsers_run {S} (repo : UserRepository.t S) page pageSize
    (w w1 w2 : World S) users total resps :
  is_int page →
  UserRepository.List repo (clamp_pageSize pageSize)
    (int_wrap ((clamp_page page - 1) * clamp_pageSize pageSize)) w
    = Some ((users, None), w1) →
  UserRepository.Count repo w1 = Some ((total, None), w2) →
  UserService.ToResponses users w2 = Some (resps, w2) →
  UserService.ListUsers repo page pageSize w =
    Some ((Some {| Users := resps; Total := total; Page := clamp_page page;
                   PageSize := clamp_pageSize pageSize;
                   TotalPages := int_div (int_sub (int_add total (clamp_pageSize pageSize)) 1)
                                         (clamp_pageSize pageSize) |}, None),
          mkWorld (heap w2) (store w2) (OperationInc "list" "success" :: emitted w2)).
Proof.
  intros Hpage Hlist Hcount Hresps.
  pose proof (clamp_page_range page Hpage) as Hp.
  unfold UserService.ListUsers.
  replace (bool_decide (pageSize < 1)) with (bool_decide (pageSize ≤ 0))
    by (apply bool_decide_ext; lia).
  fold (clamp_page page). fold (clamp_pageSize pageSize).
  assert (Hsub : int_sub (clamp_page page) 1 = clamp_page page - 1)
    by (apply int_wrap_id; unfold is_int, int_min, int_max in *; lia).
  rewrite Hsub. unfold int_mul.
  rewrite bind_run, Hlist. simpl.
  rewrite bind_run, Hcount. simpl.
  rewrite bind_run, Hresps. reflexivity.
Qed.

(** C2, as the code has it: for 64-bit integers page and pageSize, ListUsers
    replaces page by 1 when page < 1 and pageSize by 10 when pageSize ≤ 0
    or pageSize > 100, queries the repository with limit = pageSize and
    offset = (page−1)×pageSize reduced to a 64-bit integer (the exact
    product whenever that fits), and for a count between 0 and 2^63−100
    returns totalPages = ceiling(total/pageSize) with the clamped page and
    pageSize. *)
Theorem ListUsers_pagination {S : Type} (repo : UserRepository.t S)
    (page pageSize : Z) (w w1 w2 : World S) (users : list (option positive)) (total : Z) :
  is_int page → is_int pageSize →
  UserRepository.List repo (clamp_pageSize pageSize)
    (int_wrap ((clamp_page page - 1) * clamp_pageSize pageSize)) w
    = Some ((users, None), w1) →
  UserRepository.Count repo w1 = Some ((total, None), w2) →
  0 ≤ total ≤ int_max - 99 →
  Forall (λ p, is_Some (pointee w2 p)) users →
  ∃ resp w3,
    UserService.ListUsers repo page pageSize w = Some ((Some resp, None), w3) ∧
    Page resp = clamp_page page ∧
    PageSize resp = clamp_pageSize pageSize ∧
    Total resp = total ∧
    is_ceiling (TotalPages resp) total (clamp_pageSize pageSize) ∧
    Forall2 (λ p r, ToResponse <$> pointee w2 p = Some r) users (Users resp) ∧
    ((clamp_page page - 1) * clamp_pageSize pageSize ≤ int_max →
       int_wrap ((clamp_page page - 1) * clamp_pageSize pageSize)
       = (clamp_page page - 1) * clamp_pageSize pageSize).
Proof.
  intros Hpage Hsize Hlist Hcount Htotal Husers.
  pose proof (clamp_page_range page Hpage) as Hp.
  pose proof (clamp_pageSize_range pageSize) as Hs.
  destruct (ToResponses_run repo users w2 Husers) as (resps & Hresps & Hall).
  eexists _, _. split; [by eapply ListUsers_run|].
  simpl. split_and!; try done.
  - by apply totalPages_ceiling.
  - intros Hfit. apply int_wrap_id. unfold is_int, int_min, int_max in *. nia.
Qed.

Lemma ListUsers_pagination_witness :
  ∃ resp w3,
    UserService.ListUsers (InMemoryUserRepository.repo map_to_list) 0 500 two_users
      = Some ((Some resp, None), w3) ∧
    Page resp = 1 ∧
    PageSize resp = 10 ∧
    Total resp = 2 ∧
    is_ceiling (TotalPages resp) 2 10 ∧
    Forall2 (λ p r, ToResponse <$> pointee two_users p = Some r)
      (map snd (map_to_list (store two_users))) (Users resp) ∧
    ((1 - 1) * 10 ≤ int_max → int_wrap ((1 - 1) * 10) = (1 - 1) * 10).
Proof.
  apply (ListUsers_pagination (InMemoryUserRepository.repo map_to_list) 0 500
           two_users two_users two_users
           (map snd (map_to_list (store two_users))) 2).
  - unfold is_int, int_min, int_max. lia.
  - unfold is_int, int_min, int_max. lia.
  - vm_compute. reflexivity.
  - vm_compute. reflexivity.
  - unfold int_max. lia.
  - refine (bool_decide_unpack _ _). vm_compute. exact I.
Defined.

(** With page = 2^62+1 and pageSize = 4 the product (page−1)×pageSize is
    2^64; the repository is queried with offset 0.  On the in-memory
    repository the call lists both users, where a query at the product
    would list none.  And for a repository that reports the count 2^63−1,
    the page count returned for pageSize 10 is negative. *)
Lemma ListUsers_offset_wraps :
  (is_int (2 ^ 62 + 1) ∧ is_int 4) ∧
  UserService.ListUsers (spyRepo 0) (2 ^ 62 + 1) 4 (mkWorld ∅ [] [])
    = Some ((Some (mkUserListResponse [] 0 (2 ^ 62 + 1) 4 0), None),
            mkWorld ∅ [(4, 0)] [OperationInc "list" "success"]) ∧
  ((clamp_page (2 ^ 62 + 1) - 1) * clamp_pageSize 4 = 2 ^ 64 ∧ 0 ≠ 2 ^ 64) ∧
  UserService.ListUsers (InMemoryUserRepository.repo map_to_list) (2 ^ 62 + 1) 4 two_users
    = Some ((Some (mkUserListResponse [ToResponse ann; ToResponse bob] 2 (2 ^ 62 + 1) 4 1),
             None),
            mkWorld (heap two_users) (store two_users) [OperationInc "list" "success"]) ∧
  InMemoryUserRepository.List map_to_list 4 (2 ^ 64) two_users = Some (([], None), two_users) ∧
  UserService.ListUsers (spyRepo (2 ^ 63 - 1)) 1 10 (mkWorld ∅ [] [])
    = Some ((Some (mkUserListResponse [] (2 ^ 63 - 1) 1 10 (-922337203685477580)), None),
            mkWorld ∅ [(10, 0)] [OperationInc "list" "success"]).
Proof.
  split_and!; try (vm_compute; congruence); try done.
Qed.

(** ** The service maintains the repository invariant *)

Lemma keys_match_valid w : keys_match w → entries_valid w.
Proof.
  intros Hkeys k p Hk. specialize (Hkeys k p Hk). simpl in Hkeys.
  destruct (pointee w p); [by eexists|done].
Qed.

Lemma keys_match_stored w k p :
  keys_match w → store w !! k = Some p →
  ∃ l u, p = Some l ∧ heap w !! l = Some u ∧ ID u = k.
Proof.
  intros Hkeys Hk. specialize (Hkeys k p Hk). simpl in Hkeys.
  destruct p as [l|]; [|done]. simpl in Hkeys.
  destruct (heap w !! l) as [u|] eqn:Hl; [|done].
  injection Hkeys as Hkeys. by exists l, u.
Qed.

Lemma repo_inv_empty ms : repo_inv (mkWorld ∅ InMemoryUserRepository.NewInMemoryUserRepository ms).
Proof. split; apply map_Forall_empty. Qed.

Lemma ToResponses_world {S} users (w w' : World S) rs :
  UserService.ToResponses users w = Some (rs, w') → w' = w.
Proof.
  revert rs. induction users as [|p users IH]; intros rs Hrs.
  - by injection Hrs as _ <-.
  - cbn [UserService.ToResponses] in Hrs. rewrite bind_run in Hrs.
    destruct (deref p w) as [[u w1]|] eqn:Hd; [|done].
    apply deref_inv in Hd as [_ ->]. rewrite bind_run in Hrs.
    destruct (UserService.ToResponses users w) as [[rs' w2]|] eqn:Hrs'; [|done].
    injection Hrs as _ <-. by eapply IH.
Qed.

Section Invariant.
Variable order : gmap string (option positive) → list (string * ptr).
Hypothesis order_perm : range_order order.

Local Abbreviation repo := (InMemoryUserRepository.repo order).

Lemma CreateUser_repo_inv rt req w r w' :
  repo_inv w →
  UserService.CreateUser repo rt req w = Some (r, w') → repo_inv w'.
Proof.
  intros [Hkeys Huniq] Hrun.
  pose proof (keys_match_valid w Hkeys) as Hv.
  destruct (decide (email_taken w (create_Email req))) as [Htaken|Hfree].
  - rewrite (CreateUser_taken_run order order_perm rt req w Hv Htaken) in Hrun.
    by injection Hrun as _ <-.
  - rewrite (CreateUser_fresh_run order order_perm rt req w Hv Hfree) in Hrun.
    injection Hrun as _ <-.
    set (l := fresh (dom (heap w))).
    assert (Hl : heap w !! l = None) by apply not_elem_of_dom, is_fresh.
    assert (Hold : ∀ k p, store w !! k = Some p →
              pointee (mkWorld (<[l := created rt req]> (heap w))
                               (<[rt_uuid rt := Some l]> (store w))
                               (OperationInc "create" "success" :: UsersInc :: emitted w)) p
              = pointee w p ∧ Email <$> pointee w p ≠ Some (create_Email req)).
    { intros k p Hk.
      destruct (keys_match_stored w k p Hkeys Hk) as (l0 & u0 & -> & Hl0 & Hid).
      simpl. split.
      - apply lookup_insert_ne. congruence.
      - intros He. apply Hfree. by exists k, (Some l0). }
    split; [unfold keys_match|unfold emails_unique]; simpl.
    + intros k p [[<- <-]|[Hne Hk]]%lookup_insert_Some.
      * simpl. by rewrite lookup_insert_eq.
      * destruct (Hold k p Hk) as [-> _]. exact (Hkeys k p Hk).
    + intros k1 p1 [[<- <-]|[Hne1 Hk1]]%lookup_insert_Some
             k2 p2 [[<- <-]|[Hne2 Hk2]]%lookup_insert_Some Hne; try done.
      * destruct (Hold k2 p2 Hk2) as [-> Hfresh].
        simpl. rewrite lookup_insert_eq. simpl. congruence.
      * destruct (Hold k1 p1 Hk1) as [-> Hfresh].
        simpl. rewrite lookup_insert_eq. simpl. congruence.
      * destruct (Hold k1 p1 Hk1) as [-> _]. destruct (Hold k2 p2 Hk2) as [-> _].
        exact (Huniq k1 p1 Hk1 k2 p2 Hk2 Hne).
Qed.

Lemma DeleteUser_repo_inv id w r w' :
  repo_inv w →
  UserService.DeleteUser repo id w = Some (r, w') → repo_inv w'.
Proof.
  intros [Hkeys Huniq] Hrun.
  destruct (store w !! id) as [p|] eqn:Hid.
  - destruct (keys_match_stored w id p Hkeys Hid) as (l & u & -> & Hl & _).
    rewrite (DeleteUser_stored_run order w id u) in Hrun
      by (apply stored_lookup; eauto).
    injection Hrun as _ <-.
    split; [unfold keys_match|unfold emails_unique]; simpl.
    + intros k p [_ Hk]%lookup_delete_Some. exact (Hkeys k p Hk).
    + intros k1 p1 [_ Hk1]%lookup_delete_Some k2 p2 [_ Hk2]%lookup_delete_Some.
      exact (Huniq k1 p1 Hk1 k2 p2 Hk2).
  - rewrite (DeleteUser_absent_run order w id Hid) in Hrun.
    by injection Hrun as _ <-.
Qed.

Lemma UpdateUser_repo_inv rt id req w r w' :
  repo_inv w →
  UserService.UpdateUser repo rt id req w = Some (r, w') → repo_inv w'.
Proof.
  intros [Hkeys Huniq] Hrun.
  destruct (store w !! id) as [p|] eqn:Hid; cycle 1.
  { unfold UserService.UpdateUser in Hrun. rewrite bind_run in Hrun. simpl in Hrun.
    rewrite InMemoryFacts.GetByID_run, Hid in Hrun. by injection Hrun as _ <-. }
  destruct (keys_match_stored w id p Hkeys Hid) as (l & u & -> & Hl & <-).
  (* the state a successful update leaves has the invariant when the new
     email is not another entry's *)
  assert (Hok : (∀ email, update_Email req = Some email →
                   ¬ email_taken_by_other w (ID u) email) →
    repo_inv (mkWorld (<[l := apply_request req u]> (heap w)) (store w)
                      (OperationInc "update" "success" :: emitted w))).
  { intros Hfree.
    assert (Hptr : ∀ k p, store w !! k = Some p →
              (k = ID u ∧ p = Some l) ∨
              (k ≠ ID u ∧ ∃ l0, p = Some l0 ∧ l0 ≠ l)).
    { intros k p Hk.
      destruct (keys_match_stored w k p Hkeys Hk) as (l0 & u0 & -> & Hl0 & Hid0).
      destruct (decide (k = ID u)) as [->|Hne].
      - left. split; [done|]. congruence.
      - right. split; [done|]. exists l0. split; [done|]. intros ->. congruence. }
    assert (Hmail : ∀ k p, store w !! k = Some p → k ≠ ID u →
              Email <$> pointee w p ≠ Some (Email (apply_request req u))).
    { intros k p Hk Hne He. simpl in He.
      destruct (update_Email req) as [email|] eqn:Hreq; simpl in He.
      - apply (Hfree email eq_refl). by exists k, p.
      - apply (Huniq k p Hk (ID u) (Some l) Hid Hne). simpl. by rewrite Hl. }
    split.
    - intros k p Hk. simpl.
      destruct (Hptr k p Hk) as [[-> ->]|(Hne & l0 & -> & Hl0)]; simpl.
      + by rewrite lookup_insert_eq.
      + rewrite lookup_insert_ne by done. exact (Hkeys k _ Hk).
    - intros k1 p1 Hk1 k2 p2 Hk2 Hne. simpl in Hk1, Hk2.
      destruct (Hptr k1 p1 Hk1) as [[-> ->]|(Hne1 & l1 & -> & Hl1)];
        destruct (Hptr k2 p2 Hk2) as [[-> ->]|(Hne2 & l2 & -> & Hl2)];
        try done; simpl; rewrite ?lookup_insert_eq, ?lookup_insert_ne by done; simpl.
      + intros He. apply (Hmail k2 (Some l2) Hk2 Hne2). simpl. by rewrite <- He.
      + apply (Hmail k1 (Some l1) Hk1 Hne1).
      + exact (Huniq k1 _ Hk1 k2 _ Hk2 Hne). }
  destruct (update_Email req) as [email|] eqn:Hreq.
  - destruct (decide (email_taken_by_other w (ID u) email)) as [Hother|Hfree].
    + rewrite (UpdateUser_email_taken_run order order_perm rt req email l u w) in Hrun
        by done.
      by injection Hrun as _ <-.
    + rewrite (UpdateUser_email_free_run order order_perm rt req email l u w) in Hrun
        by done.
      injection Hrun as _ <-. apply Hok. by intros ? [= <-].
  - rewrite (UpdateUser_no_email_run order rt req l u w) in Hrun by done.
    injection Hrun as _ <-. apply Hok. intros ? [=].
Qed.

Lemma readers_keep_world id page pageSize w :
  (∀ r w', UserService.GetUser repo id w = Some (r, w') →
     heap w' = heap w ∧ store w' = store w) ∧
  (∀ r w', UserService.ListUsers repo page pageSize w = Some (r, w') →
     heap w' = heap w ∧ store w' = store w).
Proof.
  split; intros r w' Hrun.
  - destruct (store w !! id) as [p|] eqn:Hid.
    + unfold UserService.GetUser in Hrun. rewrite bind_run in Hrun. simpl in Hrun.
      rewrite InMemoryFacts.GetByID_run, Hid in Hrun. simpl in Hrun.
      destruct p as [l|]; [|by injection Hrun as _ <-].
      rewrite bind_run in Hrun. unfold IncOperation at 1, emit at 1 in Hrun.
      simpl in Hrun. rewrite bind_run in Hrun.
      destruct (deref _ _) as [[u w0]|] eqn:Hd; [|done].
      apply deref_inv in Hd as [_ ->]. by injection Hrun as _ <-.
    + rewrite (GetUser_absent_run order w id Hid) in Hrun. by injection Hrun as _ <-.
  - unfold UserService.ListUsers in Hrun. rewrite bind_run in Hrun. simpl in Hrun.
    unfold InMemoryUserRepository.List in Hrun.
    case_bool_decide; [done|]. rewrite bind_run in Hrun. simpl in Hrun.
    rewrite bind_run, InMemoryFacts.Count_run in Hrun. simpl in Hrun.
    rewrite bind_run in Hrun.
    match type of Hrun with
    | context [UserService.ToResponses ?us w] =>
        destruct (UserService.ToResponses us w) as [[rs w0]|] eqn:Hrs; [|done]
    end.
    apply ToResponses_world in Hrs as ->. by injection Hrun as _ <-.
Qed.
End Invariant.

Lemma repo_inv_same_tables (w w' : World (gmap string (option positive))) :
  heap w' = heap w → store w' = store w → repo_inv w → repo_inv w'.
Proof. destruct w, w'. simpl. intros -> ->. exact id. Qed.

(** Every state the service reaches from one with the repository invariant
    has it: whatever CreateUser, GetUser, ListUsers, UpdateUser or DeleteUser
    returns, keys are still the users' IDs and emails still unique.  The
    empty repository has the invariant ([repo_inv_empty]). *)
Theorem service_keeps_repo_inv
    (order : gmap string (option positive) → list (string * ptr))
    (rt : Runtime) (w : World (gmap string (option positive))) :
  range_order order →
  repo_inv w →
  (∀ req r w',
     UserService.CreateUser (InMemoryUserRepository.repo order) rt req w = Some (r, w') →
     repo_inv w') ∧
  (∀ id r w',
     UserService.GetUser (InMemoryUserRepository.repo order) id w = Some (r, w') →
     repo_inv w') ∧
  (∀ page pageSize r w',
     UserService.ListUsers (InMemoryUserRepository.repo order) page pageSize w
       = Some (r, w') →
     repo_inv w') ∧
  (∀ id req r w',
     UserService.UpdateUser (InMemoryUserRepository.repo order) rt id req w = Some (r, w') →
     repo_inv w') ∧
  (∀ id r w',
     UserService.DeleteUser (InMemoryUserRepository.repo order) id w = Some (r, w') →
     repo_inv w').
Proof.
  intros Hord Hinv. split_and!.
  - intros req r w'. by apply CreateUser_repo_inv.
  - intros id r w' Hrun.
    destruct (readers_keep_world order id 0 0 w) as [Hget _].
    destruct (Hget r w' Hrun). by eapply repo_inv_same_tables.
  - intros page pageSize r w' Hrun.
    destruct (readers_keep_world order "" page pageSize w) as [_ Hlist].
    destruct (Hlist r w' Hrun). by eapply repo_inv_same_tables.
  - intros id req r w'. by apply UpdateUser_repo_inv.
  - intros id r w'. by apply DeleteUser_repo_inv.
Qed.

Lemma service_keeps_repo_inv_witness :
  repo_inv two_users ∧
  ∃ r w',
    UserService.UpdateUser (InMemoryUserRepository.repo map_to_list) rt0 "id-2"
      (mkUserUpdateRequest (Some "robert@example.com") None (Some "admin") None) two_users
      = Some (r, w') ∧
    repo_inv w'.
Proof.
  assert (Hinv : repo_inv two_users)
    by (split; refine (bool_decide_unpack _ _); vm_compute; exact I).
  split; [exact Hinv|].
  pose proof (service_keeps_repo_inv map_to_list rt0 two_users
                (λ m, reflexivity (map_to_list m)) Hinv) as (_ & _ & _ & Hupdate & _).
  eexists _, _. split; [vm_compute; reflexivity|].
  eapply (Hupdate "id-2"
            (mkUserUpdateRequest (Some "robert@example.com") None (Some "admin") None)).
  vm_compute. reflexivity.
Defined.

(** A user just created is fetched back as it was returned: after a
    CreateUser with a free email, GetUser of the returned id succeeds with
    the same response. *)
Theorem CreateUser_then_GetUser
    (order : gmap string (option positive) → list (string * ptr))
    (rt : Runtime) (req : UserCreateRequest) (w : World (gmap string (option positive))) :
  range_order order →
  entries_valid w →
  ¬ email_taken w (create_Email req) →
  ∃ resp w' w'',
    UserService.CreateUser (InMemoryUserRepository.repo order) rt req w
      = Some ((Some resp, None), w') ∧
    UserService.GetUser (InMemoryUserRepository.repo order) (resp_ID resp) w'
      = Some ((Some resp, None), w'') ∧
    resp_Email resp = create_Email req ∧
    resp_Name resp = create_Name req ∧
    resp_Role resp = create_Role req.
Proof.
  intros Hord Hv Hfree. eexists _, _, _.
  split; [by apply CreateUser_fresh_run|].
  split; [|done].
  apply GetUser_stored_run, stored_lookup.
  eexists. simpl. by rewrite !lookup_insert_eq.
Qed.

Lemma CreateUser_then_GetUser_witness :
  ∃ resp w' w'',
    UserService.CreateUser (InMemoryUserRepository.repo map_to_list) rt0
      (mkUserCreateRequest "cy@example.com" "Cy" "viewer") two_users
      = Some ((Some resp, None), w') ∧
    UserService.GetUser (InMemoryUserRepository.repo map_to_list) (resp_ID resp) w'
      = Some ((Some resp, None), w'') ∧
    resp_Email resp = "cy@example.com" ∧
    resp_Name resp = "Cy" ∧
    resp_Role resp = "viewer".
Proof.
  apply (CreateUser_then_GetUser map_to_list rt0
           (mkUserCreateRequest "cy@example.com" "Cy" "viewer") two_users).
  - intros m. reflexivity.
  - refine (bool_decide_unpack _ _). vm_compute. exact I.
  - refine (bool_decide_unpack _ _). vm_compute. exact I.
Defined.

(** ** Listing a repository that fits on one page *)




(** ** Pages of the in-memory repository *)

(** Once [offset] is reached the loop collects entries until [limit] are
    held. *)
Lemma List_range_collect limit offset entries count acc :
  offset ≤ count → 0 ≤ count → count + Z.of_nat (length entries) ≤ int_max →
  (length acc < Z.to_nat limit)%nat →
  InMemoryUserRepository.List_range limit offset entries count acc
    = acc ++ take (Z.to_nat limit - length acc) entries.*2.
Proof.
  revert count acc. induction entries as [|[k user] rest IH];
    intros count acc Hoff Hc Hmax Hacc.
  - simpl. rewrite take_nil. by rewrite app_nil_r.
  - cbn [InMemoryUserRepository.List_range]. simpl in Hmax.
    rewrite bool_decide_eq_true_2 by done.
    rewrite length_app. simpl length.
    destruct (Z.to_nat limit - length acc)%nat as [|n] eqn:Hn; [lia|].
    simpl. case_bool_decide as Hfull.
    + assert (n = 0%nat) as -> by lia. by rewrite take_0.
    + unfold int_add. rewrite int_wrap_id by (unfold is_int, int_min, int_max in *; lia).
      rewrite IH; [|lia|lia|lia|rewrite length_app; simpl; lia].
      rewrite <- app_assoc, length_app. simpl.
      do 3 f_equal. lia.
Qed.

(** Before [offset] is reached the loop skips entries. *)
Lemma List_range_skip limit offset entries count :
  0 ≤ count → count + Z.of_nat (length entries) ≤ int_max → 0 < limit →
  InMemoryUserRepository.List_range limit offset entries count []
    = window limit (offset - count) entries.*2.
Proof.
  unfold window. revert count. induction entries as [|[k user] rest IH];
    intros count Hc Hmax Hlimit.
  - simpl. by rewrite drop_nil, take_nil.
  - destruct (decide (offset ≤ count)) as [Hoff|Hoff].
    + rewrite List_range_collect by (first [assumption | simpl; lia]).
      replace (Z.to_nat (offset - count)) with 0%nat by lia.
      simpl. by rewrite Nat.sub_0_r.
    + cbn [InMemoryUserRepository.List_range]. simpl in Hmax.
      rewrite bool_decide_eq_false_2 by done.
      unfold int_add. rewrite int_wrap_id by (unfold is_int, int_min, int_max in *; lia).
      rewrite IH by lia.
      replace (Z.to_nat (offset - count)) with (S (Z.to_nat (offset - (count + 1)))) by lia.
      reflexivity.
Qed.

Lemma List_run_window
    (order : gmap string (option positive) → list (string * option positive))
    (limit offset : Z) (w : World (gmap string (option positive))) :
  Z.of_nat (length (order (store w))) ≤ int_max →
  (0 ≤ limit →
     InMemoryUserRepository.List order limit offset w
       = Some ((window (Z.max 1 limit) offset (order (store w)).*2, None), w)) ∧
  (limit < 0 → InMemoryUserRepository.List order limit offset w = None).
Proof.
  intros Hsize. split; intros Hlimit; unfold InMemoryUserRepository.List.
  - rewrite bool_decide_eq_false_2 by lia. rewrite bind_run. simpl.
    change ((mret (?a) : Go _ _) ?w) with (Some (a, w)).
    do 2 f_equal. f_equal.
    destruct (decide (limit = 0)) as [->|Hpos].
    + (* limit 0: the first entry collected already fills the page *)
      change (Z.max 1 0) with 1. unfold window.
      generalize (order (store w)) Hsize. clear Hsize. intros entries Hsize.
      assert (Hgen : ∀ count, 0 ≤ count → count + Z.of_nat (length entries) ≤ int_max →
        InMemoryUserRepository.List_range 0 offset entries count []
          = take 1 (drop (Z.to_nat (offset - count)) entries.*2)).
      { induction entries as [|[k user] rest IH]; intros count Hc Hmax.
        - simpl. by rewrite drop_nil.
        - cbn [InMemoryUserRepository.List_range]. simpl in Hmax.
          case_bool_decide as Hoff.
          + simpl. replace (Z.to_nat (offset - count)) with 0%nat by lia.
            simpl. by rewrite take_0.
          + unfold int_add.
            rewrite int_wrap_id by (unfold is_int, int_min, int_max in *; lia).
            rewrite IH by (simpl in Hsize; lia).
            replace (Z.to_nat (offset - count))
              with (S (Z.to_nat (offset - (count + 1)))) by lia.
            reflexivity. }
      rewrite Hgen by lia. by rewrite Z.sub_0_r.
    + rewrite List_range_skip by lia.
      rewrite Z.sub_0_r. by rewrite Z.max_r by lia.
  - by rewrite bool_decide_eq_true_2 by lia.
Qed.



Lemma length_window {A} limit offset (l : list A) :
  0 ≤ limit → 0 ≤ offset →
  Z.of_nat (length (window limit offset l))
    = Z.max 0 (Z.min limit (Z.of_nat (length l) - offset)).
Proof.
  intros Hl Ho. unfold window. rewrite length_take, length_drop. lia.
Qed.

(** ListUsers over the in-memory repository returns, for a page whose
    offset fits in an int, as many users as the page holds: pageSize of
    them, or what is left of the users after the offset, or none when the
    page lies past the end; total and totalPages are reported all the
    same. *)
Theorem ListUsers_page_length
    (order : gmap string (option positive) → list (string * option positive))
    (page pageSize : Z) (w : World (gmap string (option positive))) :
  range_order order →
  entries_valid w →
  is_int page →
  (clamp_page page - 1) * clamp_pageSize pageSize ≤ int_max →
  Z.of_nat (size (store w)) ≤ int_max - 99 →
  ∃ resp w',
    UserService.ListUsers (InMemoryUserRepository.repo order) page pageSize w
      = Some ((Some resp, None), w') ∧
    Z.of_nat (length (Users resp))
      = Z.max 0 (Z.min (clamp_pageSize pageSize)
                   (Z.of_nat (size (store w))
                    - (clamp_page page - 1) * clamp_pageSize pageSize)) ∧
    Total resp = Z.of_nat (size (store w)) ∧
    is_ceiling (TotalPages resp) (Z.of_nat (size (store w))) (clamp_pageSize pageSize) ∧
    (TotalPages resp < clamp_page page → Users resp = []).
Proof.
  intros Hord Hv Hpage Hfit Hsize.
  pose proof (clamp_page_range page Hpage) as Hp.
  pose proof (clamp_pageSize_range pageSize) as Hs.
  assert (Hlen : length (order (store w)) = size (store w)).
  { rewrite (Hord (store w)). apply length_map_to_list. }
  set (off := (clamp_page page - 1) * clamp_pageSize pageSize) in *.
  assert (Hoff : 0 ≤ off) by (unfold off; nia).
  set (users := window (clamp_pageSize pageSize) off (order (store w)).*2).
  assert (Husers : Forall (λ p, is_Some (pointee w p)) users).
  { unfold users, window. apply Forall_take, Forall_drop, Forall_fmap.
    by apply InMemoryFacts.order_valid. }
  destruct (ToResponses_run (InMemoryUserRepository.repo order) _ w Husers)
    as (resps & Hresps & Hall).
  assert (Hceil : is_ceiling
            (int_div (int_sub (int_add (Z.of_nat (size (store w))) (clamp_pageSize pageSize)) 1)
                     (clamp_pageSize pageSize))
            (Z.of_nat (size (store w))) (clamp_pageSize pageSize))
    by (apply totalPages_ceiling; lia).
  assert (Hcount : Z.of_nat (length resps)
            = Z.max 0 (Z.min (clamp_pageSize pageSize) (Z.of_nat (size (store w)) - off))).
  { apply Forall2_length in Hall. rewrite <- Hall. unfold users.
    rewrite length_window by lia. by rewrite length_fmap, Hlen. }
  eexists _, _. split.
  - eapply (ListUsers_run (InMemoryUserRepository.repo order) page pageSize w w w).
    + done.
    + simpl. fold off. rewrite (int_wrap_id off)
        by (unfold is_int, int_min, int_max in *; lia).
      destruct (List_run_window order (clamp_pageSize pageSize) off w) as [Hlist _].
      { rewrite Hlen. unfold int_max in *. lia. }
      rewrite Hlist by lia. by rewrite Z.max_r by lia.
    + reflexivity.
    + exact Hresps.
  - simpl. split_and!; try done.
    intros Hpast. apply length_zero_iff_nil, Nat2Z.inj. rewrite Hcount.
    unfold is_ceiling in Hceil. nia.
Qed.

Lemma ListUsers_page_length_witness :
  ∃ resp w',
    UserService.ListUsers (InMemoryUserRepository.repo map_to_list) 3 1 two_users
      = Some ((Some resp, None), w') ∧
    Z.of_nat (length (Users resp))
      = Z.max 0 (Z.min (clamp_pageSize 1)
                   (Z.of_nat (size (store two_users)) - (clamp_page 3 - 1) * clamp_pageSize 1)) ∧
    Total resp = Z.of_nat (size (store two_users)) ∧
    is_ceiling (TotalPages resp) (Z.of_nat (size (store two_users))) (clamp_pageSize 1) ∧
    (TotalPages resp < clamp_page 3 → Users resp = []).
Proof.
  apply (ListUsers_page_length map_to_list 3 1 two_users).
  - intros m. reflexivity.
  - refine (bool_decide_unpack _ _). vm_compute. exact I.
  - unfold is_int, int_min, int_max. lia.
  - vm_compute. discriminate.
  - vm_compute. discriminate.
Defined.

(** ** The in-memory repository as a table *)

(** Create and Update are one operation: each stores the pointer under
    the ID of the user it leads to, adding the entry when the ID is new and
    replacing it otherwise, and never returns an error.  GetByID of that ID
    then returns the pointer, every other ID reads as before, and Count
    grows by one exactly when the ID was new. *)
Theorem Create_Update_upsert
    (user : option positive) (u : User) (w : World (gmap string (option positive))) :
  pointee w user = Some u →
  ∃ w1,
    InMemoryUserRepository.Create user w = Some (None, w1) ∧
    InMemoryUserRepository.Update user w = Some (None, w1) ∧
    heap w1 = heap w ∧
    InMemoryUserRepository.GetByID (ID u) w1 = Some ((user, None), w1) ∧
    (∀ id, id ≠ ID u →
       ∃ r, InMemoryUserRepository.GetByID id w = Some ((r, None), w) ∧
            InMemoryUserRepository.GetByID id w1 = Some ((r, None), w1)) ∧
    InMemoryUserRepository.Count w1
      = Some ((Z.of_nat (size (store w))
               + (if bool_decide (store w !! ID u = None) then 1 else 0), None), w1).
Proof.
  intros Hu. eexists. split; [by apply InMemoryFacts.Create_run|].
  split; [by apply InMemoryFacts.Update_run|].
  split; [reflexivity|]. split_and!.
  - rewrite InMemoryFacts.GetByID_run. simpl. by rewrite lookup_insert_eq.
  - intros id Hne. eexists. rewrite !InMemoryFacts.GetByID_run. simpl.
    by rewrite lookup_insert_ne by done.
  - rewrite InMemoryFacts.Count_run. simpl. do 3 f_equal.
    rewrite map_size_insert. case_bool_decide as Hnew.
    + rewrite Hnew. lia.
    + destruct (store w !! ID u); [simpl; lia|done].
Qed.

Lemma Create_Update_upsert_witness :
  ∃ w1,
    InMemoryUserRepository.Create (Some 2%positive) bob_unlisted = Some (None, w1) ∧
    InMemoryUserRepository.Update (Some 2%positive) bob_unlisted = Some (None, w1) ∧
    InMemoryUserRepository.GetByID "id-2" w1 = Some ((Some 2%positive, None), w1) ∧
    InMemoryUserRepository.GetByID "id-1" w1 = Some ((Some 1%positive, None), w1) ∧
    InMemoryUserRepository.Count w1 = Some ((2, None), w1).
Proof.
  destruct (Create_Update_upsert (Some 2%positive) bob bob_unlisted eq_refl)
    as (w1 & Hcreate & Hupdate & _ & Hget & Hothers & Hcount).
  exists w1. split_and!; [done..| |exact Hcount].
  destruct (Hothers "id-1") as (r & Hbefore & Hafter); [done|].
  injection Hbefore as <-. exact Hafter.
Defined.

(** Delete removes exactly the entry of its id: GetByID of that id then
    returns nil without an error, every other id reads as before, and Count
    falls by one exactly when the id was present. *)
Theorem Delete_removes_entry (id : string) (w : World (gmap string (option positive))) :
  ∃ w1,
    InMemoryUserRepository.Delete id w = Some (None, w1) ∧
    heap w1 = heap w ∧
    InMemoryUserRepository.GetByID id w1 = Some ((None, None), w1) ∧
    (∀ id', id' ≠ id →
       ∃ r, InMemoryUserRepository.GetByID id' w = Some ((r, None), w) ∧
            InMemoryUserRepository.GetByID id' w1 = Some ((r, None), w1)) ∧
    InMemoryUserRepository.Count w1
      = Some ((Z.of_nat (size (store w))
               - (if bool_decide (store w !! id = None) then 0 else 1), None), w1).
Proof.
  eexists. split; [apply InMemoryFacts.Delete_run|].
  split; [reflexivity|]. split_and!.
  - rewrite InMemoryFacts.GetByID_run. simpl. by rewrite lookup_delete_eq.
  - intros id' Hne. eexists. rewrite !InMemoryFacts.GetByID_run. simpl.
    by rewrite lookup_delete_ne by done.
  - rewrite InMemoryFacts.Count_run. simpl. do 3 f_equal.
    rewrite map_size_delete. case_bool_decide as Hnone.
    + rewrite Hnone. simpl. lia.
    + destruct (store w !! id) eqn:Hid; [|done]. simpl.
      assert (size (store w) ≠ 0%nat); [|lia].
      intros Hempty%map_size_empty_inv. by rewrite Hempty, lookup_empty in Hid.
Qed.

(** GetByEmail never fails and changes nothing; it returns nil exactly when
    no stored user has the email, and otherwise a pointer that is stored in
    the map and leads to a user with exactly that email. *)
Theorem GetByEmail_finds_iff
    (order : gmap string (option positive) → list (string * option positive))
    (email : string) (w : World (gmap string (option positive))) :
  range_order order →
  entries_valid w →
  ∃ user,
    InMemoryUserRepository.GetByEmail order email w = Some ((user, None), w) ∧
    (user = None ↔ ¬ email_taken w email) ∧
    (∀ l, user = Some l →
       ∃ k u, store w !! k = Some (Some l) ∧ heap w !! l = Some u ∧ Email u = email).
Proof.
  intros Hord Hv. destruct (decide (email_taken w email)) as [Htaken|Hfree].
  - destruct (InMemoryFacts.GetByEmail_found order Hord w email Hv Htaken)
      as (k & l & u & Hk & Hl & He & Hrun).
    exists (Some l). split; [done|]. split; [split; [done|tauto]|].
    intros l' [= <-]. by exists k, u.
  - exists None. split; [by apply InMemoryFacts.GetByEmail_none|].
    split; [done|]. by intros l [=].
Qed.

Lemma GetByEmail_finds_iff_witness :
  ∃ user,
    InMemoryUserRepository.GetByEmail map_to_list "bob@example.com" two_users
      = Some ((user, None), two_users) ∧
    (user = None ↔ ¬ email_taken two_users "bob@example.com") ∧
    (∀ l, user = Some l →
       ∃ k u, store two_users !! k = Some (Some l) ∧ heap two_users !! l = Some u ∧
              Email u = "bob@example.com").
Proof.
  apply (GetByEmail_finds_iff map_to_list "bob@example.com" two_users).
  - intros m. reflexivity.
  - refine (bool_decide_unpack _ _). vm_compute. exact I.
Defined.

(** ** Every outcome of a service operation over the in-memory repository *)

Lemma GetByEmail_range_inv email entries (w w1 : World (gmap string (option positive)))
    ex err :
  InMemoryUserRepository.GetByEmail_range email entries w = Some ((ex, err), w1) →
  w1 = w ∧ err = None ∧
  (ex = None ∨ ∃ u, pointee w ex = Some u ∧ Email u = email).
Proof.
  induction entries as [|[k user] rest IH]; intros Hrun.
  - injection Hrun as <- <- <-. eauto.
  - cbn [InMemoryUserRepository.GetByEmail_range] in Hrun. rewrite bind_run in Hrun.
    destruct (deref user w) as [[u w0]|] eqn:Hd; [|done].
    apply deref_inv in Hd as [Hu ->].
    destruct (decide (Email u = email)) as [He|He]; [|by apply IH].
    injection Hrun as <- <- <-. split_and!; [done..|]. right. by exists u.
Qed.

Section Outcomes.
Variable order : gmap string (option positive) → list (string * option positive).

Local Abbreviation repo := (InMemoryUserRepository.repo order).

Lemma GetByEmail_inv email (w w1 : World (gmap string (option positive))) ex err :
  InMemoryUserRepository.GetByEmail order email w = Some ((ex, err), w1) →
  w1 = w ∧ err = None ∧
  (ex = None ∨ ∃ u, pointee w ex = Some u ∧ Email u = email).
Proof. apply GetByEmail_range_inv. Qed.

Lemma CreateUser_outcome rt req w r e w' :
  UserService.CreateUser repo rt req w = Some ((r, e), w') →
  (r = None ∧
   e = Some (AppError ErrCodeConflict "User with this email already exists"
               (create_Email req) None (rt_stack rt)) ∧
   w' = w) ∨
  (r = Some (ToResponse (created rt req)) ∧ e = None ∧
   w' = mkWorld (<[fresh (dom (heap w)) := created rt req]> (heap w))
                (<[rt_uuid rt := Some (fresh (dom (heap w)))]> (store w))
                (OperationInc "create" "success" :: UsersInc :: emitted w)).
Proof.
  intros Hrun. unfold UserService.CreateUser in Hrun.
  rewrite bind_run in Hrun. simpl in Hrun.
  destruct (InMemoryUserRepository.GetByEmail order (create_Email req) w)
    as [[[ex err] w1]|] eqn:Hget; [|done].
  apply GetByEmail_inv in Hget as (-> & -> & _).
  destruct ex as [l|].
  - left. by injection Hrun as <- <- <-.
  - right. rewrite bind_run in Hrun. unfold NewUser at 1, alloc at 1 in Hrun.
    cbv beta zeta in Hrun. rewrite bind_run in Hrun.
    erewrite InMemoryFacts.Create_run in Hrun by (simpl; apply lookup_insert_eq).
    simpl in Hrun.
    rewrite bind_run in Hrun. unfold IncUsers at 1, emit at 1 in Hrun. simpl in Hrun.
    rewrite bind_run in Hrun. unfold IncOperation at 1, emit at 1 in Hrun. simpl in Hrun.
    rewrite bind_run in Hrun. unfold deref at 1 in Hrun. simpl in Hrun.
    rewrite lookup_insert_eq in Hrun. by injection Hrun as <- <- <-.
Qed.

Lemma GetUser_outcome id w r e w' :
  UserService.GetUser repo id w = Some ((r, e), w') →
  (r = None ∧ e = Some (NotFoundError "User" id) ∧ w' = w) ∨
  (∃ u, stored w id u ∧ r = Some (ToResponse u) ∧ e = None ∧
        w' = mkWorld (heap w) (store w) (OperationInc "get" "success" :: emitted w)).
Proof.
  intros Hrun. destruct (store w !! id) as [[l|]|] eqn:Hid.
  - destruct (heap w !! l) as [u|] eqn:Hl.
    + right. exists u. assert (Hu : stored w id u) by (apply stored_lookup; eauto).
      rewrite (GetUser_stored_run order w id u Hu) in Hrun.
      by injection Hrun as <- <- <-.
    + unfold UserService.GetUser in Hrun. rewrite bind_run in Hrun. simpl in Hrun.
      rewrite InMemoryFacts.GetByID_run, Hid in Hrun. simpl in Hrun.
      rewrite bind_run in Hrun. unfold IncOperation at 1, emit at 1 in Hrun.
      simpl in Hrun. rewrite bind_run in Hrun. unfold deref in Hrun. simpl in Hrun.
      by rewrite Hl in Hrun.
  - left. unfold UserService.GetUser in Hrun. rewrite bind_run in Hrun. simpl in Hrun.
    rewrite InMemoryFacts.GetByID_run, Hid in Hrun. by injection Hrun as <- <- <-.
  - left. rewrite (GetUser_absent_run order w id Hid) in Hrun.
    by injection Hrun as <- <- <-.
Qed.

Lemma ListUsers_outcome page pageSize w r e w' :
  UserService.ListUsers repo page pageSize w = Some ((r, e), w') →
  is_Some r ∧ e = None ∧
  w' = mkWorld (heap w) (store w) (OperationInc "list" "success" :: emitted w).
Proof.
  intros Hrun. unfold UserService.ListUsers in Hrun.
  rewrite bind_run in Hrun. simpl in Hrun.
  unfold InMemoryUserRepository.List in Hrun.
  case_bool_decide; [done|]. rewrite bind_run in Hrun. simpl in Hrun.
  rewrite bind_run, InMemoryFacts.Count_run in Hrun. simpl in Hrun.
  rewrite bind_run in Hrun.
  match type of Hrun with
  | context [UserService.ToResponses ?us w] =>
      destruct (UserService.ToResponses us w) as [[rs w0]|] eqn:Hrs; [|done]
  end.
  apply ToResponses_world in Hrs as ->. injection Hrun as <- <- <-. eauto.
Qed.

Lemma DeleteUser_outcome id w e w' :
  UserService.DeleteUser repo id w = Some (e, w') →
  (e = Some (NotFoundError "User" id) ∧ w' = w) ∨
  (is_Some (default None (store w !! id)) ∧ e = None ∧
   w' = mkWorld (heap w) (delete id (store w))
                (OperationInc "delete" "success" :: emitted w)).
Proof.
  intros Hrun. unfold UserService.DeleteUser in Hrun.
  rewrite bind_run in Hrun. simpl in Hrun.
  rewrite InMemoryFacts.GetByID_run in Hrun.
  destruct (store w !! id) as [[l|]|] eqn:Hid; simpl in Hrun.
  - right. injection Hrun as <- <-. eauto.
  - left. by injection Hrun as <- <-.
  - left. by injection Hrun as <- <-.
Qed.

(** [UpdateUser]'s tail on a pointer that leads nowhere panics. *)
Lemma UpdateUser_apply_dangling req l (w : World (gmap string (option positive))) :
  heap w !! l = None →
  UserService.UpdateUser_apply repo req (Some l) w = None.
Proof.
  intros Hl. unfold UserService.UpdateUser_apply.
  destruct req as [e [n|] [r|] [a|]]; simpl;
    unfold mbind, Go_bind, assign, mret, Go_ret, InMemoryUserRepository.Update, deref;
    simpl; rewrite ?Hl; simpl; try done.
  rewrite bind_run. simpl. by rewrite Hl.
Qed.

Lemma UpdateUser_finish_any req l u (w : World (gmap string (option positive))) :
  (err ← UserRepository.Update repo (Some l);
   match err with
   | Some _ => mret (None, Some ErrInternalServer)
   | None =>
       IncOperation "update" "success";;
       u ← deref (Some l);
       mret (Some (ToResponse u), None)
   end) (updated req l u w) =
  Some ((Some (ToResponse (apply_request req u)), None),
        mkWorld (<[l := apply_request req u]> (heap w)) (<[ID u := Some l]> (store w))
                (OperationInc "update" "success" :: emitted w)).
Proof.
  rewrite bind_run. simpl.
  erewrite InMemoryFacts.Update_run by (simpl; apply lookup_insert_eq).
  simpl.
  rewrite bind_run. unfold IncOperation at 1, emit at 1. simpl.
  rewrite bind_run. unfold deref. simpl. by rewrite lookup_insert_eq.
Qed.

Lemma UpdateUser_outcome rt id req w r e w' :
  UserService.UpdateUser repo rt id req w = Some ((r, e), w') →
  (r = None ∧ e = Some (NotFoundError "User" id) ∧ w' = w) ∨
  (∃ email, update_Email req = Some email ∧ r = None ∧
      e = Some (AppError ErrCodeConflict "Email is already in use" email None
                  (rt_stack rt)) ∧
      w' = w) ∨
  (∃ l u, store w !! id = Some (Some l) ∧ heap w !! l = Some u ∧
      r = Some (ToResponse (apply_request req u)) ∧ e = None ∧
      w' = mkWorld (<[l := apply_request req u]> (heap w)) (<[ID u := Some l]> (store w))
                   (OperationInc "update" "success" :: emitted w)).
Proof.
  intros Hrun.
  destruct (store w !! id) as [[l|]|] eqn:Hid; cycle 1.
  { left. unfold UserService.UpdateUser in Hrun. rewrite bind_run in Hrun.
    simpl in Hrun. rewrite InMemoryFacts.GetByID_run, Hid in Hrun.
    by injection Hrun as <- <- <-. }
  { left. unfold UserService.UpdateUser in Hrun. rewrite bind_run in Hrun.
    simpl in Hrun. rewrite InMemoryFacts.GetByID_run, Hid in Hrun.
    by injection Hrun as <- <- <-. }
  assert (Hget : UserRepository.GetByID repo id w = Some ((Some l, None), w)).
  { simpl. by rewrite InMemoryFacts.GetByID_run, Hid. }
  rewrite <- Hid. right.
  destruct (update_Email req) as [email|] eqn:Hreq.
  - destruct (InMemoryUserRepository.GetByEmail order email w)
      as [[[ex err] w1]|] eqn:Hmail; cycle 1.
    { unfold UserService.UpdateUser in Hrun. rewrite bind_run, Hget in Hrun.
      simpl in Hrun. rewrite Hreq, bind_run in Hrun. simpl in Hrun.
      by rewrite Hmail in Hrun. }
    destruct (GetByEmail_inv _ _ _ _ _ Hmail) as (-> & -> & Hex).
    assert (Hfree : ex = None ∨ ID <$> pointee w ex = Some id →
      ∃ l u, store w !! id = Some (Some l) ∧ heap w !! l = Some u ∧
        r = Some (ToResponse (apply_request req u)) ∧ e = None ∧
        w' = mkWorld (<[l := apply_request req u]> (heap w)) (<[ID u := Some l]> (store w))
                     (OperationInc "update" "success" :: emitted w)).
    { intros Hself. destruct (heap w !! l) as [u|] eqn:Hl.
      - erewrite (UpdateUser_email_free repo) in Hrun by done.
        rewrite UpdateUser_finish_any in Hrun.
        injection Hrun as <- <- <-. by exists l, u.
      - exfalso. unfold UserService.UpdateUser in Hrun.
        rewrite bind_run, Hget in Hrun. simpl in Hrun.
        rewrite Hreq, bind_run in Hrun. simpl in Hrun. rewrite Hmail in Hrun.
        rewrite bind_run in Hrun.
        assert (Htaken :
          (match ex with
           | Some _ => e ← deref ex; mret (bool_decide (ID e ≠ id))
           | None => mret false
           end : Go _ bool) w = Some (false, w)).
        { destruct Hself as [->|Hself]; [done|].
          destruct (pointee w ex) as [u'|] eqn:Hu'; [|done].
          injection Hself as Hself. destruct ex as [le|]; [|done].
          rewrite (bind_run_Some _ _ _ _ _ (deref_run _ _ _ Hu')).
          by rewrite bool_decide_eq_false_2 by (intros Hne; by apply Hne). }
        rewrite Htaken in Hrun. rewrite bind_run in Hrun.
        unfold assign at 1 in Hrun. by rewrite Hl in Hrun. }
    destruct Hex as [->|(u' & Hu' & He')]; [right; apply Hfree; by left|].
    destruct (decide (ID u' = id)) as [Hsame|Hother].
    + right. apply Hfree. right. by rewrite Hu', <- Hsame.
    + left. exists email. split; [done|].
      rewrite (UpdateUser_email_taken repo rt id req email w l w ex u' w) in Hrun by done.
      by injection Hrun as <- <- <-.
  - right. destruct (heap w !! l) as [u|] eqn:Hl.
    + erewrite (UpdateUser_no_email repo) in Hrun by done.
      rewrite UpdateUser_finish_any in Hrun.
      injection Hrun as <- <- <-. by exists l, u.
    + exfalso. unfold UserService.UpdateUser in Hrun.
      rewrite bind_run, Hget in Hrun. simpl in Hrun. rewrite Hreq in Hrun.
      by rewrite UpdateUser_apply_dangling in Hrun.
Qed.
End Outcomes.

(** ** Failed operations leave no trace *)

(** Over the in-memory repository a service operation that returns an
    error returns no result and leaves users, table and metrics exactly as
    they were; the error is not-found (404) or conflict (409), never the
    internal error, and ListUsers returns no error at all. *)
Theorem service_errors_change_nothing
    (order : gmap string (option positive) → list (string * option positive))
    (rt : Runtime) (w : World (gmap string (option positive))) :
  (∀ req r e w',
     UserService.CreateUser (InMemoryUserRepository.repo order) rt req w
       = Some ((r, Some e), w') →
     w' = w ∧ r = None ∧ HTTPStatus e = 409) ∧
  (∀ id r e w',
     UserService.GetUser (InMemoryUserRepository.repo order) id w = Some ((r, Some e), w') →
     w' = w ∧ r = None ∧ HTTPStatus e = 404) ∧
  (∀ page pageSize r e w',
     UserService.ListUsers (InMemoryUserRepository.repo order) page pageSize w
       ≠ Some ((r, Some e), w')) ∧
  (∀ id req r e w',
     UserService.UpdateUser (InMemoryUserRepository.repo order) rt id req w
       = Some ((r, Some e), w') →
     w' = w ∧ r = None ∧ (HTTPStatus e = 404 ∨ HTTPStatus e = 409)) ∧
  (∀ id e w',
     UserService.DeleteUser (InMemoryUserRepository.repo order) id w = Some (Some e, w') →
     w' = w ∧ HTTPStatus e = 404).
Proof.
  split_and!.
  - intros req r e w' [(-> & [= ->] & ->)|(_ & [=] & _)]%CreateUser_outcome. done.
  - intros id r e w' [(-> & [= ->] & ->)|(u & _ & _ & [=] & _)]%GetUser_outcome. done.
  - intros page pageSize r e w' (_ & [=] & _)%ListUsers_outcome.
  - intros id req r e w'
      [(-> & [= ->] & ->)|[(email & _ & -> & [= ->] & ->)|(l & u & _ & _ & _ & [=] & _)]]
      %UpdateUser_outcome; split_and!; try done; [by left|by right].
  - intros id e w' [([= ->] & ->)|(_ & [=] & _)]%DeleteUser_outcome. done.
Qed.

(** Over the in-memory repository a service operation that succeeds
    records exactly its own success metric (CreateUser also counts the
    user), on top of the metrics recorded before. *)
Theorem success_records_its_metric
    (order : gmap string (option positive) → list (string * option positive))
    (rt : Runtime) (w : World (gmap string (option positive))) :
  (∀ req r w',
     UserService.CreateUser (InMemoryUserRepository.repo order) rt req w
       = Some ((r, None), w') →
     emitted w' = OperationInc "create" "success" :: UsersInc :: emitted w) ∧
  (∀ id r w',
     UserService.GetUser (InMemoryUserRepository.repo order) id w = Some ((r, None), w') →
     emitted w' = OperationInc "get" "success" :: emitted w) ∧
  (∀ page pageSize r w',
     UserService.ListUsers (InMemoryUserRepository.repo order) page pageSize w
       = Some ((r, None), w') →
     emitted w' = OperationInc "list" "success" :: emitted w) ∧
  (∀ id req r w',
     UserService.UpdateUser (InMemoryUserRepository.repo order) rt id req w
       = Some ((r, None), w') →
     emitted w' = OperationInc "update" "success" :: emitted w) ∧
  (∀ id w',
     UserService.DeleteUser (InMemoryUserRepository.repo order) id w = Some (None, w') →
     emitted w' = OperationInc "delete" "success" :: emitted w).
Proof.
  split_and!.
  - by intros req r w' [(_ & [=] & _)|(_ & _ & ->)]%CreateUser_outcome.
  - by intros id r w' [(_ & [=] & _)|(u & _ & _ & _ & ->)]%GetUser_outcome.
  - by intros page pageSize r w' (_ & _ & ->)%ListUsers_outcome.
  - by intros id req r w'
      [(_ & [=] & _)|[(email & _ & _ & [=] & _)|(l & u & _ & _ & _ & _ & ->)]]
      %UpdateUser_outcome.
  - by intros id w' [([=] & _)|(_ & _ & ->)]%DeleteUser_outcome.
Qed.

(** An id with no entry is not found: GetUser, UpdateUser and DeleteUser
    each return the not-found error for it (code 404, text "User not
    found", the id in the detail) and change nothing. *)
Theorem unknown_id_is_not_found
    (order : gmap string (option positive) → list (string * option positive))
    (rt : Runtime) (id : string) (req : UserUpdateRequest)
    (w : World (gmap string (option positive))) :
  store w !! id = None →
  UserService.GetUser (InMemoryUserRepository.repo order) id w
    = Some ((None, Some (NotFoundError "User" id)), w) ∧
  UserService.UpdateUser (InMemoryUserRepository.repo order) rt id req w
    = Some ((None, Some (NotFoundError "User" id)), w) ∧
  UserService.DeleteUser (InMemoryUserRepository.repo order) id w
    = Some (Some (NotFoundError "User" id), w) ∧
  HTTPStatus (NotFoundError "User" id) = 404 ∧
  Error (NotFoundError "User" id) = "User not found" ∧
  Response (NotFoundError "User" id) !! "details" = Some (JString ("ID: " +:+ id)).
Proof.
  intros Hid. split_and!.
  - by apply GetUser_absent_run.
  - unfold UserService.UpdateUser. rewrite bind_run. simpl.
    by rewrite InMemoryFacts.GetByID_run, Hid.
  - by apply DeleteUser_absent_run.
  - done.
  - done.
  - unfold Response, NotFoundError. simpl. apply lookup_insert_eq.
Qed.

Lemma unknown_id_is_not_found_witness :
  UserService.GetUser (InMemoryUserRepository.repo map_to_list) "id-9" two_users
    = Some ((None, Some (NotFoundError "User" "id-9")), two_users) ∧
  UserService.UpdateUser (InMemoryUserRepository.repo map_to_list) rt0 "id-9"
      (rename "Nobody") two_users
    = Some ((None, Some (NotFoundError "User" "id-9")), two_users) ∧
  UserService.DeleteUser (InMemoryUserRepository.repo map_to_list) "id-9" two_users
    = Some (Some (NotFoundError "User" "id-9"), two_users) ∧
  HTTPStatus (NotFoundError "User" "id-9") = 404 ∧
  Error (NotFoundError "User" "id-9") = "User not found" ∧
  Response (NotFoundError "User" "id-9") !! "details" = Some (JString "ID: id-9").
Proof.
  apply (unknown_id_is_not_found map_to_list rt0 "id-9" (rename "Nobody") two_users).
  reflexivity.
Defined.

(** ** Reading back an update *)

(** In a state where keys are the users' IDs, after UpdateUser succeeds
    for a stored user, GetUser of the same id returns the response
    UpdateUser returned, and every other id leads to the user it led to
    before. *)
Theorem UpdateUser_then_GetUser
    (order : gmap string (option positive) → list (string * option positive))
    (rt : Runtime) (id : string) (req : UserUpdateRequest) (resp : UserResponse)
    (w w' : World (gmap string (option positive))) :
  keys_match w →
  UserService.UpdateUser (InMemoryUserRepository.repo order) rt id req w
    = Some ((Some resp, None), w') →
  (∃ w'', UserService.GetUser (InMemoryUserRepository.repo order) id w'
            = Some ((Some resp, None), w'')) ∧
  (∀ k v, k ≠ id → stored w' k v ↔ stored w k v).
Proof.
  intros Hkeys
    [(_ & [=] & _)|[(email & _ & _ & [=] & _)|(l & u & Hid & Hl & [= ->] & _ & ->)]]
    %UpdateUser_outcome.
  destruct (keys_match_stored w id _ Hkeys Hid) as (l0 & u0 & [= <-] & Hl0 & Hkey).
  assert (u0 = u) as -> by congruence.
  split.
  - eexists. apply GetUser_stored_run, stored_lookup. exists l. simpl.
    rewrite Hkey. by rewrite !lookup_insert_eq.
  - intros k v Hne. rewrite !stored_lookup. simpl.
    rewrite Hkey, lookup_insert_ne by done.
    split; intros (l1 & Hk & Hv); exists l1; (split; [done|]).
    + rewrite lookup_insert_ne in Hv; [done|].
      intros <-. destruct (keys_match_stored w k _ Hkeys Hk) as (l2 & u2 & [= <-] & Hl2 & Hk2).
      congruence.
    + rewrite lookup_insert_ne; [done|].
      intros <-. destruct (keys_match_stored w k _ Hkeys Hk) as (l2 & u2 & [= <-] & Hl2 & Hk2).
      congruence.
Qed.

Lemma UpdateUser_then_GetUser_witness :
  (∃ w'', UserService.GetUser (InMemoryUserRepository.repo map_to_list) "id-1"
            (mkWorld (<[1%positive := apply_request (rename "Anna") ann]> (heap two_users))
                     (store two_users) [OperationInc "update" "success"])
          = Some ((Some (ToResponse (apply_request (rename "Anna") ann)), None), w'')) ∧
  (∀ k v, k ≠ "id-1" →
     stored (mkWorld (<[1%positive := apply_request (rename "Anna") ann]> (heap two_users))
                     (store two_users) [OperationInc "update" "success"]) k v
     ↔ stored two_users k v).
Proof.
  apply (UpdateUser_then_GetUser map_to_list rt0 "id-1" (rename "Anna")
           (ToResponse (apply_request (rename "Anna") ann)) two_users).
  - refine (bool_decide_unpack _ _). vm_compute. exact I.
  - vm_compute. reflexivity.
Defined.

(** ** Emails stay unique, and are freed by deletion *)

(** After CreateUser succeeds for a free email, every further CreateUser
    with that email, whatever its name and role, returns the conflict error
    (409) and changes nothing. *)
Theorem CreateUser_twice_conflicts
    (order : gmap string (option positive) → list (string * option positive))
    (rt rt' : Runtime) (req req' : UserCreateRequest)
    (w : World (gmap string (option positive))) :
  range_order order →
  entries_valid w →
  ¬ email_taken w (create_Email req) →
  create_Email req' = create_Email req →
  ∃ resp w1 e,
    UserService.CreateUser (InMemoryUserRepository.repo order) rt req w
      = Some ((Some resp, None), w1) ∧
    UserService.CreateUser (InMemoryUserRepository.repo order) rt' req' w1
      = Some ((None, Some e), w1) ∧
    HTTPStatus e = 409.
Proof.
  intros Hord Hv Hfree Hsame.
  exists (ToResponse (created rt req)).
  eexists. exists (AppError ErrCodeConflict "User with this email already exists"
                     (create_Email req') None (rt_stack rt')).
  split; [by apply CreateUser_fresh_run|].
  assert (Hl : heap w !! fresh (dom (heap w)) = None) by apply not_elem_of_dom, is_fresh.
  split; [|reflexivity].
  apply CreateUser_taken_run; [done| |].
  - unfold entries_valid. simpl.
    intros k p [[<- <-]|[Hne Hk]]%lookup_insert_Some; simpl.
    + rewrite lookup_insert_eq. by eexists.
    + destruct (Hv k p Hk) as [u Hu]. exists u.
      destruct p as [l|]; [|done]. simpl in *.
      rewrite lookup_insert_ne; [done|congruence].
  - exists (rt_uuid rt), (Some (fresh (dom (heap w)))). simpl.
    rewrite !lookup_insert_eq. split; [done|]. simpl. by rewrite Hsame.
Qed.

Lemma CreateUser_twice_conflicts_witness :
  ∃ resp w1 e,
    UserService.CreateUser (InMemoryUserRepository.repo map_to_list) rt0
      (mkUserCreateRequest "cy@example.com" "Cy" "viewer") two_users
      = Some ((Some resp, None), w1) ∧
    UserService.CreateUser (InMemoryUserRepository.repo map_to_list)
      (mkRuntime "id-4" 4000 "services.go:41")
      (mkUserCreateRequest "cy@example.com" "Cyrus" "admin") w1
      = Some ((None, Some e), w1) ∧
    HTTPStatus e = 409.
Proof.
  apply (CreateUser_twice_conflicts map_to_list rt0 (mkRuntime "id-4" 4000 "services.go:41")
           (mkUserCreateRequest "cy@example.com" "Cy" "viewer")
           (mkUserCreateRequest "cy@example.com" "Cyrus" "admin") two_users).
  - intros m. reflexivity.
  - refine (bool_decide_unpack _ _). vm_compute. exact I.
  - refine (bool_decide_unpack _ _). vm_compute. exact I.
  - reflexivity.
Defined.

(** In a state with the repository invariant, deleting a stored user frees
    its email: after DeleteUser(u.ID) a CreateUser with u's email
    succeeds. *)
Theorem DeleteUser_frees_email
    (order : gmap string (option positive) → list (string * option positive))
    (rt : Runtime) (req : UserCreateRequest) (u : User)
    (w : World (gmap string (option positive))) :
  range_order order →
  repo_inv w →
  stored w (ID u) u →
  create_Email req = Email u →
  ∃ w1 resp w2,
    UserService.DeleteUser (InMemoryUserRepository.repo order) (ID u) w = Some (None, w1) ∧
    UserService.CreateUser (InMemoryUserRepository.repo order) rt req w1
      = Some ((Some resp, None), w2) ∧
    resp_Email resp = Email u.
Proof.
  intros Hord [Hkeys Huniq] Hu Hmail. eexists _, (ToResponse (created rt req)), _.
  split; [by eapply DeleteUser_stored_run|].
  apply stored_lookup in Hu as (l & Hid & Hl).
  split; [|exact Hmail].
  apply CreateUser_fresh_run; [done| |].
  - unfold entries_valid. simpl.
    intros k p [_ Hk]%lookup_delete_Some. exact (keys_match_valid w Hkeys k p Hk).
  - unfold email_taken. simpl.
    intros (k & p & [Hne Hk]%lookup_delete_Some & Hp). simpl in Hp.
    apply (Huniq k p Hk (ID u) (Some l) Hid (not_eq_sym Hne)).
    change (pointee w p) with
      (pointee (mkWorld (heap w) (delete (ID u) (store w))
                        (OperationInc "delete" "success" :: emitted w)) p).
    rewrite Hp, Hmail. simpl. by rewrite Hl.
Qed.

Lemma DeleteUser_frees_email_witness :
  ∃ w1 resp w2,
    UserService.DeleteUser (InMemoryUserRepository.repo map_to_list) "id-1" two_users
      = Some (None, w1) ∧
    UserService.CreateUser (InMemoryUserRepository.repo map_to_list) rt0
      (mkUserCreateRequest "ann@example.com" "Ann again" "viewer") w1
      = Some ((Some resp, None), w2) ∧
    resp_Email resp = "ann@example.com".
Proof.
  apply (DeleteUser_frees_email map_to_list rt0
           (mkUserCreateRequest "ann@example.com" "Ann again" "viewer") ann two_users).
  - intros m. reflexivity.
  - split; refine (bool_decide_unpack _ _); vm_compute; exact I.
  - exists (Some 1%positive). split; reflexivity.
  - reflexivity.
Defined.


(** ** Errors as clients see them *)


(** WrapError puts its own code and message in front of the cause: the
    result's HTTPStatus is the new code whatever the cause's was, Is
    compares that code alone, Unwrap returns the cause, and the text is the
    message, a colon and the cause's text.  Its Response shows the text of a
    wrapped plain error as details and nothing of a wrapped AppError.  Is
    answers false for a plain error, though HTTPStatus reports it as 500. *)
Theorem WrapError_outer_code_wins (stack : string) (err : error) (code : Z)
    (message : string) (target : error) :
  HTTPStatus (WrapError stack err code message) = code ∧
  Is (WrapError stack err code message) target = bool_decide (code = Code target) ∧
  Unwrap (WrapError stack err code message) = Some err ∧
  Error (WrapError stack err code message) = message +:+ ": " +:+ Error err ∧
  Response (WrapError stack err code message) !! "details"
    = match err with
      | errorString s => if bool_decide (s = "") then None else Some (JString s)
      | AppError _ _ _ _ _ => None
      end ∧
  (∀ s, Is (errorString s) ErrInternalServer = false ∧
        HTTPStatus (errorString s) = Code ErrInternalServer) ∧
  (∀ resource id, Is (NotFoundError resource id) ErrNotFound = true ∧
                  Is (ConflictError resource id) ErrNotFound = false).
Proof.
  destruct err as [s|c m d i st]; split_and!; try done.
  unfold Response. simpl. case_bool_decide; case_bool_decide; by simplify_map_eq.
Qed.

(** ** The write handlers *)

(** The create handler answers 201 exactly when the body decodes with
    email, name and role all non-empty, with the new user built from them
    as body and one request counted; otherwise it answers 400 with an error
    body, counts nothing and allocates nothing.  It reads no stored user,
    so it never answers 409. *)
Theorem CreateUser_handler_validates (rt : Runtime) (decoded : option UserCreateRequest)
    (h : gmap positive User) (ms : list Metric) :
  ∃ h' rw' ms',
    Handlers_CreateUser rt decoded (mkWorld h newResponseWriter ms)
      = Some (tt, mkWorld h' rw' ms') ∧
    (rw_status rw' = Some StatusCreated ∨ rw_status rw' = Some StatusBadRequest) ∧
    (rw_status rw' = Some StatusCreated ↔
       ∃ req, decoded = Some req ∧ create_Email req ≠ "" ∧ create_Name req ≠ ""
              ∧ create_Role req ≠ "") ∧
    (∀ req, decoded = Some req → rw_status rw' = Some StatusCreated →
       rw_body rw' = [UserPayload (ToResponse (created rt req))] ∧
       ms' = RequestInc "create_user" :: ms) ∧
    (rw_status rw' = Some StatusBadRequest →
       h' = h ∧ ms' = ms ∧
       ∃ message, rw_body rw' = [ErrorPayload (mkErrorResponse message 400 message "")]).
Proof.
  destruct decoded as [req|]; simpl.
  - destruct (bool_decide (create_Email req = "")) eqn:He;
      [|destruct (bool_decide (create_Name req = "")) eqn:Hn;
        [|destruct (bool_decide (create_Role req = "")) eqn:Hr]]; simpl.
    4: { apply bool_decide_eq_false in He, Hn, Hr.
         eexists _, _, _. split.
         { rewrite bind_run. unfold NewUser at 1, alloc at 1. cbv beta zeta.
           rewrite bind_run. unfold IncRequest at 1, emit at 1. simpl.
           rewrite bind_run. unfold deref at 1. simpl. rewrite lookup_insert_eq.
           reflexivity. }
         simpl. split_and!; [by left| |by intros ? [= <-] _|done].
         split; [|done]. intros _. by exists req. }
    all: eexists _, _, _; split; [reflexivity|]; simpl.
    all: split_and!; [by right| |done|by eauto].
    all: split; [done|]; intros (req' & [= <-] & ? & ? & ?).
    all: apply bool_decide_eq_true in He || apply bool_decide_eq_true in Hn
         || apply bool_decide_eq_true in Hr; done.
  - eexists _, _, _. split; [reflexivity|]. simpl.
    split_and!; [by right| |done|by eauto].
    split; [done|]. by intros (req & [=] & _).
Qed.

(** The update handler answers 400 exactly when the body does not decode;
    otherwise it answers 200 with a user made of the path id and fixed
    fields, the same whatever the body asks for: no field of the request
    reaches the response. *)
Theorem UpdateUser_handler_ignores_body (id : string) (decoded : option UserUpdateRequest)
    (h : gmap positive User) (ms : list Metric) :
  ∃ rw' ms',
    Handlers_UpdateUser id decoded (mkWorld h newResponseWriter ms)
      = Some (tt, mkWorld h rw' ms') ∧
    (rw_status rw' = Some StatusBadRequest ↔ decoded = None) ∧
    (is_Some decoded →
       rw_status rw' = Some StatusOK ∧
       rw_body rw' = [UserPayload (mkUserResponse id "updated@example.com" "Updated User"
                                     "user" true 0 0)] ∧
       ms' = RequestInc "update_user" :: ms) ∧
    (∀ req1 req2,
       Handlers_UpdateUser id (Some req1) (mkWorld h newResponseWriter ms)
       = Handlers_UpdateUser id (Some req2) (mkWorld h newResponseWriter ms)).
Proof.
  destruct decoded as [req|]; eexists _, _; (split; [reflexivity|]); simpl.
  - split_and!; [done|done|done].
  - split_and!; [done|by intros [? [=]]|done].
Qed.

(** ** Configuration *)

Lemma getEnv_default env key d : getEnv env key d = default d (env !! key).
Proof. unfold getEnv. by destruct (env !! key). Qed.

Lemma getEnvAsInt_default env key d :
  getEnvAsInt env key d = default d (env !! key ≫= Atoi).
Proof.
  unfold getEnvAsInt. destruct (env !! key) as [v|]; [|done].
  simpl. by destruct (Atoi v).
Qed.

Lemma Atoi_is_int v n : Atoi v = Some n → is_int n.
Proof.
  unfold Atoi. intros Hv.
  destruct (match v with
            | String "-"%char rest => (true, rest)
            | String "+"%char rest => (false, rest)
            | _ => (false, v)
            end) as [negative body].
  destruct body; [done|]. destruct (digits 0 _); [|done].
  case_bool_decide; [|done]. by injection Hv as <-.
Qed.

Lemma getEnvAsInt_is_int env key d : is_int d → is_int (getEnvAsInt env key d).
Proof.
  intros Hd. unfold getEnvAsInt. destruct (env !! key) as [v|]; [|done].
  destruct (Atoi v) as [n|] eqn:Hv; [|done]. by eapply Atoi_is_int.
Qed.


(** Load never fails.  A setting whose variable is not set takes its
    default (0.0.0.0, 8080, development, info, 9090, 1048576, 30, 30, and
    empty for the two URLs and the secret); a string setting takes the
    variable's value as it is, also when empty; an integer setting takes
    the variable's value when it is a decimal integer within the int range
    and silently takes the default otherwise. *)
Theorem Load_defaults (env : gmap string string) :
  ∃ cfg,
    Load env = (Some cfg, None) ∧
    Host cfg = default "0.0.0.0" (env !! "APP_HOST") ∧
    Environment cfg = default "development" (env !! "ENVIRONMENT") ∧
    LogLevel cfg = default "info" (env !! "LOG_LEVEL") ∧
    DatabaseURL cfg = default "" (env !! "DATABASE_URL") ∧
    RedisURL cfg = default "" (env !! "REDIS_URL") ∧
    JWTSecret cfg = default "" (env !! "JWT_SECRET") ∧
    Port cfg = default 8080 (env !! "APP_PORT" ≫= Atoi) ∧
    MetricsPort cfg = default 9090 (env !! "METRICS_PORT" ≫= Atoi) ∧
    MaxHeaderSize cfg = default 1048576 (env !! "MAX_HEADER_SIZE" ≫= Atoi) ∧
    ReadTimeout cfg = default 30 (env !! "READ_TIMEOUT" ≫= Atoi) ∧
    WriteTimeout cfg = default 30 (env !! "WRITE_TIMEOUT" ≫= Atoi) ∧
    is_int (Port cfg) ∧ is_int (MetricsPort cfg) ∧ is_int (MaxHeaderSize cfg) ∧
    is_int (ReadTimeout cfg) ∧ is_int (WriteTimeout cfg).
Proof.
  eexists. split; [reflexivity|]. simpl.
  split_and!; try apply getEnvAsInt_default; try apply getEnv_default; try done;
    apply getEnvAsInt_is_int; unfold is_int, int_min, int_max; lia.
Qed.



Lemma service_errors_change_nothing_witness :
  UserService.CreateUser (InMemoryUserRepository.repo map_to_list) rt0
    (mkUserCreateRequest "bob@example.com" "Robert" "viewer") two_users
    = Some ((None, Some (AppError ErrCodeConflict "User with this email already exists"
                           "bob@example.com" None (rt_stack rt0))), two_users) ∧
  two_users = two_users ∧ (None : option UserResponse) = None ∧
  HTTPStatus (AppError ErrCodeConflict "User with this email already exists"
                "bob@example.com" None (rt_stack rt0)) = 409.
Proof.
  assert (Hrun : UserService.CreateUser (InMemoryUserRepository.repo map_to_list) rt0
    (mkUserCreateRequest "bob@example.com" "Robert" "viewer") two_users
    = Some ((None, Some (AppError ErrCodeConflict "User with this email already exists"
                           "bob@example.com" None (rt_stack rt0))), two_users))
    by (vm_compute; reflexivity).
  split; [exact Hrun|].
  destruct (service_errors_change_nothing map_to_list rt0 two_users) as (Hcreate & _).
  exact (Hcreate _ _ _ _ Hrun).
Defined.

Lemma success_records_its_metric_witness :
  ∃ w',
    UserService.DeleteUser (InMemoryUserRepository.repo map_to_list) "id-2" two_users
      = Some (None, w') ∧
    emitted w' = OperationInc "delete" "success" :: emitted two_users.
Proof.
  eexists. split; [vm_compute; reflexivity|].
  destruct (success_records_its_metric map_to_list rt0 two_users) as (_ & _ & _ & _ & Hdelete).
  apply (Hdelete "id-2"). vm_compute. reflexivity.
Defined.


(** ** Reading integers from the environment *)

Lemma digits_app acc s1 s2 :
  digits acc (s1 +:+ s2) = digits acc s1 ≫= λ a, digits a s2.
Proof.
  revert acc. induction s1 as [|c s1 IH]; intros acc; [done|].
  simpl. destruct (digit c); [apply IH|done].
Qed.

Lemma string_app_snoc t c s : t +:+ String c s = (t +:+ String c "") +:+ s.
Proof.
  induction t as [|a t IH]; [done|].
  change (String a (t +:+ String c s) = String a ((t +:+ String c "") +:+ s)).
  by rewrite IH.
Qed.

Lemma string_app_nil t : t +:+ "" = t.
Proof.
  induction t as [|a t IH]; [done|].
  change (String a (t +:+ "") = String a t). by rewrite IH.
Qed.

Lemma digit_pretty_N_char x : (x < 10)%N → digit (pretty_N_char x) = Some (Z.of_N x).
Proof.
  intros Hx.
  assert (x = 0 ∨ x = 1 ∨ x = 2 ∨ x = 3 ∨ x = 4 ∨ x = 5 ∨ x = 6 ∨ x = 7 ∨ x = 8 ∨ x = 9)%N
    as Hcases by lia.
  repeat (destruct Hcases as [->|Hcases]; [done|]). by subst.
Qed.

(** The numeral [pretty_N_go] puts in front of [s] reads back as the
    number. *)
Lemma digits_pretty_N_go x s :
  ∃ t, pretty_N_go x s = t +:+ s ∧
       (∀ acc, digits acc t = Some (acc * 10 ^ Z.of_nat (String.length t) + Z.of_N x)) ∧
       ((0 < x)%N → t ≠ "").
Proof.
  revert s. induction (N.lt_wf_0 x) as [x _ IH]; intros s.
  assert (x = 0 ∨ 0 < x)%N as [->|Hpos] by lia.
  - exists "". split; [done|]. split; [|lia]. intros acc. simpl. f_equal. lia.
  - rewrite pretty_N_go_step by done.
    destruct (IH (x `div` 10)%N (N.div_lt x 10 Hpos eq_refl)
                 (String (pretty_N_char (x `mod` 10)) s)) as (t & Ht & Hdigits & _).
    rewrite Ht.
    exists (t +:+ String (pretty_N_char (x `mod` 10)) "").
    split; [|split].
    + apply string_app_snoc.
    + intros acc. rewrite digits_app, Hdigits. simpl.
      rewrite digit_pretty_N_char by (apply N.mod_lt; lia). f_equal.
      assert (Hlen : String.length (t +:+ String (pretty_N_char (x `mod` 10)) "")
                     = S (String.length t)).
      { clear. induction t as [|c t IHt]; [done|]. simpl. by rewrite IHt. }
      rewrite Hlen, Nat2Z.inj_succ, Z.pow_succ_r by lia.
      rewrite (N.div_mod x 10) at 3 by lia.
      rewrite N2Z.inj_add, N2Z.inj_mul. simpl Z.of_N. lia.
    + intros _. by destruct t.
Qed.

Lemma digits_first_char acc c rest n :
  digits acc (String c rest) = Some n → c ≠ "-"%char ∧ c ≠ "+"%char.
Proof.
  simpl. destruct (digit c) as [d|] eqn:Hd; [|done]. intros _.
  split; intros ->; discriminate.
Qed.

Lemma digits_pretty_pos p :
  ∃ c rest, pretty (N.pos p) = String c rest ∧
            digits 0 (String c rest) = Some (Z.pos p).
Proof.
  unfold pretty, pretty_N. rewrite decide_False by done.
  destruct (digits_pretty_N_go (N.pos p) "") as (t & Ht & Hdigits & Hne).
  rewrite Ht, string_app_nil.
  destruct t as [|c rest]; [by destruct Hne|].
  exists c, rest. split; [done|]. rewrite (Hdigits 0). f_equal.
Qed.

(** [strconv.Atoi] reads back the decimal numeral of every [int]. *)
Lemma Atoi_pretty n : is_int n → Atoi (pretty n) = Some n.
Proof.
  unfold is_int, int_min, int_max. intros Hn. destruct n as [|p|p].
  - done.
  - change (pretty (Z.pos p)) with (pretty (N.pos p)).
    destruct (digits_pretty_pos p) as (c & rest & -> & Hdigits).
    destruct (digits_first_char _ _ _ _ Hdigits) as [Hminus Hplus].
    unfold Atoi.
    assert (Hbody : (match String c rest with
                     | String "-"%char r => (true, r)
                     | String "+"%char r => (false, r)
                     | _ => (false, String c rest)
                     end) = (false, String c rest)).
    { destruct c as [[] [] [] [] [] [] [] []]; try done. }
    rewrite Hbody, Hdigits.
    rewrite bool_decide_eq_true_2; [done|]. unfold int_min, int_max. lia.
  - change (pretty (Z.neg p)) with (String "-"%char (pretty (N.pos p))).
    destruct (digits_pretty_pos p) as (c & rest & -> & Hdigits).
    unfold Atoi. rewrite Hdigits.
    rewrite bool_decide_eq_true_2; [done|]. unfold int_min, int_max. lia.
Qed.

(** The settings read as integers take every [int] written in
    decimal: the port is whatever number [APP_PORT] holds, a negative one
    or one above 65535 included, and [Load] reports no error. *)
Theorem Load_reads_any_int (env : gmap string string) (n : Z) :
  is_int n →
  ∃ cfg, Load (<["APP_PORT" := pretty n]> env) = (Some cfg, None) ∧
         Port cfg = n ∧
         Host cfg = getEnv env "APP_HOST" "0.0.0.0" ∧
         MetricsPort cfg = getEnvAsInt env "METRICS_PORT" 9090.
Proof.
  intros Hn. eexists. split; [reflexivity|]. simpl.
  unfold getEnvAsInt, getEnv. rewrite lookup_insert_eq.
  rewrite !lookup_insert_ne by done.
  by rewrite Atoi_pretty.
Qed.

Lemma Load_reads_any_int_witness :
  is_int (-70000) ∧
  ∃ cfg, Load (<["APP_PORT" := "-70000"]> some_env) = (Some cfg, None) ∧
         Port cfg = -70000 ∧
         Host cfg = "0.0.0.0" ∧
         MetricsPort cfg = 9090.
Proof.
  assert (Hn : is_int (-70000)) by (unfold is_int, int_min, int_max; lia).
  split; [exact Hn|].
  exact (Load_reads_any_int some_env (-70000) Hn).
Defined.
